(** * ai-image-detector: the detection endpoint and the upload widget

    A shallow embedding of the route handler [POST] of the detection
    endpoint (request validation, the provider chain, JSON repair, score
    normalisation, the hash fallback) and of the upload widget's [onFiles] /
    [analyze] handlers, followed by the properties the specification states
    about them.

    Conventions.
    - A JavaScript number is an IEEE double.  Every operation the handlers
      apply to a score (comparison, [Math.min], [Math.max], [Math.round],
      remainder and [>>> 0] on non-negative integers below 2^53) is exact, so
      a finite double is represented by the rational it denotes and the three
      non-finite doubles are separate constructors.  Signed zero is not
      distinguished: no handler observes it.
    - A JavaScript string is a [string]; its characters stand for code units.
    - What the language runtime and the SDKs compute (JSON.parse, string to
      number conversion, the provider calls) is a method of the class
      [Runtime]; nothing is assumed about these methods. *)

From Stdlib Require Import ZArith QArith Qround List String Ascii Bool Arith Lia.
From Stdlib.Strings Require Import Byte.
Import ListNotations.

(* ================================================================== *)
(** ** JavaScript values *)
(* ================================================================== *)

Module Js.

(** Numbers. *)
Inductive number : Type :=
| NaN
| PosInfinity
| NegInfinity
| Finite (q : Q).

Definition of_Z (z : Z) : number := Finite (inject_Z z).

(** [Number.isFinite]. *)
Definition isFinite (x : number) : bool :=
  match x with
  | Finite _ => true
  | _ => false
  end.

Definition isNaN (x : number) : bool :=
  match x with
  | NaN => true
  | _ => false
  end.

(** [a <= b]; false as soon as one side is NaN. *)
Definition le (a b : number) : bool :=
  match a, b with
  | NaN, _ | _, NaN => false
  | NegInfinity, _ => true
  | _, PosInfinity => true
  | _, NegInfinity => false
  | PosInfinity, _ => false
  | Finite p, Finite q => Qle_bool p q
  end.

(** [a < b]. *)
Definition lt (a b : number) : bool :=
  match a, b with
  | NaN, _ | _, NaN => false
  | _, NegInfinity => false
  | NegInfinity, _ => true
  | PosInfinity, _ => false
  | Finite _, PosInfinity => true
  | Finite p, Finite q => negb (Qle_bool q p)
  end.

(** [a > b]. *)
Definition gt (a b : number) : bool := lt b a.

(** [Math.min(a, b)]. *)
Definition Math_min (a b : number) : number :=
  match a, b with
  | NaN, _ | _, NaN => NaN
  | _, _ => if le a b then a else b
  end.

(** [Math.max(a, b)]. *)
Definition Math_max (a b : number) : number :=
  match a, b with
  | NaN, _ | _, NaN => NaN
  | _, _ => if le a b then b else a
  end.

(** [Math.round(x)]: the integer nearest to [x], ties towards +Infinity. *)
Definition Math_round (x : number) : number :=
  match x with
  | Finite q => of_Z (Qfloor (q + (1 # 2)))
  | _ => x
  end.

(** [Math.floor(a / b)] on non-negative integers, [b > 0]. *)
Definition floor_div (a b : nat) : nat := Nat.div a b.

(** [x >>> 0] on an integer: ToUint32. *)
Definition to_uint32 (x : Z) : Z := Z.modulo x (2 ^ 32).

(** Strings. *)

(** Truthiness of a string: every string but the empty one. *)
Definition truthy_string (s : string) : bool :=
  match s with
  | EmptyString => false
  | String _ _ => true
  end.

(** [s.startsWith(p)]. *)
Definition startsWith (s p : string) : bool := String.prefix p s.

(** [s.slice(0, n)]. *)
Definition slice0 (n : nat) (s : string) : string := String.substring 0 n s.

(** [s.slice(i, j)] for [0 <= i <= j]. *)
Definition slice (i j : nat) (s : string) : string := String.substring i (j - i) s.

(** White space and line terminators among the code units below 256:
    TAB, LF, VT, FF, CR, SPACE and NBSP. *)
Definition is_space (c : ascii) : bool :=
  let n := nat_of_ascii c in
  ((9 <=? n) && (n <=? 13) || (n =? 32) || (n =? 160))%nat.

Fixpoint trimStart (s : string) : string :=
  match s with
  | EmptyString => EmptyString
  | String c s' => if is_space c then trimStart s' else s
  end.

Fixpoint trimEnd (s : string) : string :=
  match s with
  | EmptyString => EmptyString
  | String c s' =>
      match trimEnd s' with
      | EmptyString => if is_space c then EmptyString else String c EmptyString
      | t => String c t
      end
  end.

(** [s.trim()]. *)
Definition trim (s : string) : string := trimEnd (trimStart s).

(** [s.split(sep)] for a one-character separator. *)
Fixpoint split (sep : ascii) (s : string) : list string :=
  match s with
  | EmptyString => [EmptyString]
  | String c s' =>
      if Ascii.eqb c sep then EmptyString :: split sep s'
      else match split sep s' with
           | piece :: pieces => String c piece :: pieces
           | [] => [String c EmptyString]
           end
  end.

(** [pieces.join(sep)]. *)
Fixpoint join (sep : ascii) (pieces : list string) : string :=
  match pieces with
  | [] => EmptyString
  | [p] => p
  | p :: rest => (p ++ String sep (join sep rest))%string
  end.

(** [s.indexOf(c)]; [None] stands for -1. *)
Fixpoint indexOf (c : ascii) (s : string) : option nat :=
  match s with
  | EmptyString => None
  | String d s' =>
      if Ascii.eqb d c then Some 0%nat
      else option_map S (indexOf c s')
  end.

(** [s.lastIndexOf(c)]; [None] stands for -1. *)
Fixpoint lastIndexOf (c : ascii) (s : string) : option nat :=
  match s with
  | EmptyString => None
  | String d s' =>
      match lastIndexOf c s' with
      | Some i => Some (S i)
      | None => if Ascii.eqb d c then Some 0%nat else None
      end
  end.

(** ASCII lower-casing, for the [i] flag of a regular expression. *)
Definition lower (c : ascii) : ascii :=
  let n := nat_of_ascii c in
  if ((65 <=? n) && (n <=? 90))%nat then ascii_of_nat (n + 32) else c.

(** [strip_prefix ci p s]: when [s] starts with [p] (ignoring ASCII case if
    [ci]), the rest of [s] after it. *)
Fixpoint strip_prefix (ci : bool) (p s : string) : option string :=
  match p, s with
  | EmptyString, _ => Some s
  | String _ _, EmptyString => None
  | String a p', String b s' =>
      if (if ci then Ascii.eqb (lower a) (lower b) else Ascii.eqb a b)
      then strip_prefix ci p' s'
      else None
  end.

(** The text after the leftmost occurrence of [p] in [s]. *)
Fixpoint after_first (ci : bool) (p s : string) : option string :=
  match strip_prefix ci p s with
  | Some rest => Some rest
  | None =>
      match s with
      | EmptyString => None
      | String _ s' => after_first ci p s'
      end
  end.

(** The text before the leftmost occurrence of [p] in [s]. *)
Fixpoint before_first (p s : string) : option string :=
  match strip_prefix false p s with
  | Some _ => Some EmptyString
  | None =>
      match s with
      | EmptyString => None
      | String c s' => option_map (String c) (before_first p s')
      end
  end.

(** The first capture group of [s.match(/OPEN([\s\S]*?)CLOSE/)]: the
    shortest text between the leftmost [open] and the next [close]. *)
Definition match_between (ci : bool) (open close s : string) : option string :=
  match after_first ci open s with
  | Some rest => before_first close rest
  | None => None
  end.

(** JSON values, as [JSON.parse] builds them; an object is the list of its
    own properties. *)
#[local] Unset Elimination Schemes.
Inductive value : Type :=
| JNull
| JBool (b : bool)
| JNum (n : number)
| JStr (s : string)
| JArr (items : list value)
| JObj (props : list (string * value)).
#[local] Set Elimination Schemes.

(** [o[key]] on a property list; [None] stands for [undefined]. *)
Fixpoint lookup (key : string) (props : list (string * value)) : option value :=
  match props with
  | [] => None
  | (k, v) :: rest => if String.eqb k key then Some v else lookup key rest
  end.

(** [(v as any)?.key]; [None] stands for [undefined]. *)
Definition get (v : option value) (key : string) : option value :=
  match v with
  | Some (JObj props) => lookup key props
  | _ => None
  end.

(** ToBoolean. *)
Definition truthy (v : option value) : bool :=
  match v with
  | None => false
  | Some JNull => false
  | Some (JBool b) => b
  | Some (JNum NaN) => false
  | Some (JNum (Finite q)) => negb (Qeq_bool q 0)
  | Some (JNum _) => true
  | Some (JStr s) => truthy_string s
  | Some (JArr _) => true
  | Some (JObj _) => true
  end.

End Js.

(* ================================================================== *)
(** ** The language runtime and the provider SDKs *)
(* ================================================================== *)

(** A provider model, as the SDK factories build it: [openrouter(name)] or
    [xai(name, ...)]. *)
Inductive model : Type :=
| OpenRouterModel (name : string)
| XaiModel (name : string).

(** What the handlers call but do not define.  A provider call either
    returns or throws ([None]); it may change the world in both cases. *)
Class Runtime : Type := {
  World : Type;
  (** [JSON.parse]; [None] when it throws. *)
  JSON_parse : string -> option Js.value;
  (** [Number(s)] on a string. *)
  StringToNumber : string -> Js.number;
  (** [String(n)] on a number. *)
  NumberToString : Js.number -> string;
  (** [String(v)] on an array or an object. *)
  ObjectToString : Js.value -> string;
  (** [generateObject({ model, schema, messages })]: the [object] of the result,
      given the model, the MIME type and the image bytes of the message. *)
  generateObject : model -> string -> list byte -> World -> option Js.value * World;
  (** [generateText({ model, messages })]: the [text] of the result. *)
  generateText : model -> string -> list byte -> World -> option string * World;
  (** [URL.createObjectURL(file)], from the type and the size of the file. *)
  createObjectURL : string -> Z -> string
}.

(* ================================================================== *)
(** ** The detection endpoint *)
(* ================================================================== *)

Module Route.

Local Open Scope string_scope.

(** *** Requests and responses *)

(** A [File]: its [type], its [size], and what [arrayBuffer()] resolves to
    ([None] when it rejects). *)
Record File : Type := {
  file_type : string;
  file_size : Z;
  file_arrayBuffer : option (list byte)
}.

(** An entry of a [FormData]. *)
Inductive entry : Type :=
| EntryFile (f : File)
| EntryString (s : string).

Definition FormData : Type := list (string * entry).

(** [form.get(name)]: the first entry of that name. *)
Fixpoint form_get (name : string) (form : FormData) : option entry :=
  match form with
  | [] => None
  | (k, e) :: rest => if String.eqb k name then Some e else form_get name rest
  end.

(** A request: what [req.formData()] resolves to ([None] when it rejects). *)
Record NextRequest : Type := {
  formData : option FormData
}.

(** [process.env]. *)
Record Env : Type := {
  OPENROUTER_API_KEY : option string;
  OPENROUTER_MODEL : option string;
  XAI_API_KEY : option string
}.

(** Truthiness of an environment variable. *)
Definition env_truthy (v : option string) : bool :=
  match v with
  | Some s => Js.truthy_string s
  | None => false
  end.

(** The body of a JSON response. *)
Record Detection : Type := {
  score : Js.number;
  label : string;
  reason : string;
  provider : string
}.

Inductive NextResponse : Type :=
| TextResponse (body : string) (status : Z)
| JsonResponse (body : Detection).

Definition status_of (r : NextResponse) : Z :=
  match r with
  | TextResponse _ st => st
  | JsonResponse _ => 200
  end.

(** *** extractJsonObject *)

Definition fence : string := "```".
Definition fence_json : string := "```json".

(** The third candidate: the text from the first [{] to the last [}]. *)
Definition brace_block (text : string) : option string :=
  match Js.indexOf "{" text, Js.lastIndexOf "}" text with
  | Some firstBrace, Some lastBrace =>
      if (firstBrace <? lastBrace)%nat
      then Some (Js.trim (Js.slice firstBrace (lastBrace + 1) text))
      else None
  | _, _ => None
  end.

(** Does the text start, after white space, with [}] or [\]]? *)
Fixpoint closes (s : string) : bool :=
  match s with
  | EmptyString => false
  | String c s' =>
      if Js.is_space c then closes s'
      else Ascii.eqb c "}" || Ascii.eqb c "]"
  end.

(** [candidate.replace(/,(\s*[}\]])/g, "$1")]. *)
Fixpoint remove_trailing_commas (s : string) : string :=
  match s with
  | EmptyString => EmptyString
  | String c s' =>
      if Ascii.eqb c "," && closes s' then remove_trailing_commas s'
      else String c (remove_trailing_commas s')
  end.

Section WithRuntime.
Context `{RT : Runtime}.

(** The body of the outer [try]; [None] when it throws. *)
Definition extractJsonObject_try (text : string) : option Js.value :=
  if negb (Js.truthy_string text) then Some Js.JNull
  else
    match Js.match_between true fence_json fence text with
    | Some (String c1 cs1) =>
        JSON_parse (Js.trim (String c1 cs1))
    | _ =>
        let fenced :=
          match Js.match_between false fence fence text with
          | Some (String c2 cs2) => JSON_parse (Js.trim (String c2 cs2))
          | _ => None
          end in
        match fenced with
        | Some v => Some v
        | None =>
            match brace_block text with
            | Some candidate => JSON_parse (remove_trailing_commas candidate)
            | None => Some Js.JNull
            end
        end
    end.

Definition extractJsonObject (text : string) : Js.value :=
  match extractJsonObject_try text with
  | Some v => v
  | None => Js.JNull
  end.

(** *** The zod schema

    [z.object({ score: z.preprocess(f, z.number().min(0).max(100)),
                reason: z.string().min(3).max(200) })], following zod's
    documentation: [z.number()] rejects NaN, the bounds are inclusive, a
    string is measured by its [length]. *)

Definition preprocess_score (v : option Js.value) : option Js.value :=
  match v with
  | Some (Js.JStr s) =>
      let n := StringToNumber s in
      if Js.isFinite n then Some (Js.JNum n) else v
  | _ => v
  end.

Definition schema_score (v : option Js.value) : option Js.number :=
  match preprocess_score v with
  | Some (Js.JNum n) =>
      if negb (Js.isNaN n) && Js.le (Js.of_Z 0) n && Js.le n (Js.of_Z 100)
      then Some n else None
  | _ => None
  end.

Definition schema_reason (v : option Js.value) : option string :=
  match v with
  | Some (Js.JStr s) =>
      if ((3 <=? String.length s) && (String.length s <=? 200))%nat
      then Some s else None
  | _ => None
  end.

Record SchemaData : Type := {
  data_score : Js.number;
  data_reason : string
}.

(** [schema.safeParse(v)]: [Some data] when [success]. *)
Definition safeParse (v : Js.value) : option SchemaData :=
  match v with
  | Js.JObj props =>
      match schema_score (Js.lookup "score" props),
            schema_reason (Js.lookup "reason" props) with
      | Some s, Some r => Some {| data_score := s; data_reason := r |}
      | _, _ => None
      end
  | _ => None
  end.

(** *** Conversions applied to a provider's object *)

(** [Number(v)]. *)
Definition Number (v : option Js.value) : Js.number :=
  match v with
  | None => Js.NaN
  | Some Js.JNull => Js.of_Z 0
  | Some (Js.JBool b) => if b then Js.of_Z 1 else Js.of_Z 0
  | Some (Js.JNum n) => n
  | Some (Js.JStr s) => StringToNumber s
  | Some o => StringToNumber (ObjectToString o)
  end.

(** [String(v)] on a value that is not [undefined]. *)
Definition ToString (v : Js.value) : string :=
  match v with
  | Js.JNull => "null"
  | Js.JBool b => if b then "true" else "false"
  | Js.JNum n => NumberToString n
  | Js.JStr s => s
  | o => ObjectToString o
  end.

(** *** Normalisation *)

(** [if (score < 45) ... else if (score <= 55) ... else ...]. *)
Definition label_of (score : Js.number) : string :=
  if Js.lt score (Js.of_Z 45) then "Human-Captured"
  else if Js.le score (Js.of_Z 55) then "Uncertain"
  else "AI-Generated".

(** [Math.round(Math.max(0, Math.min(100, rawScore)))]. *)
Definition clamp_round (rawScore : Js.number) : Js.number :=
  let clamped := Js.Math_max (Js.of_Z 0) (Js.Math_min (Js.of_Z 100) rawScore) in
  Js.Math_round clamped.

(** [if (!Number.isFinite(rawScore)) rawScore = 50], then the clamp and
    [Math.round]. *)
Definition normalize_score (rawScore : Js.number) : Js.number :=
  let rawScore := if negb (Js.isFinite rawScore) then Js.of_Z 50 else rawScore in
  clamp_round rawScore.

(** The score of the [generateObject] branches, from
    [Number((result.object as any)?.score)]. *)
Definition object_score (object : Js.value) : Js.number :=
  let rawScore := Number (Js.get (Some object) "score") in
  normalize_score rawScore.

(** The reason of the [generateObject] branches:
    [String(object?.reason || "No reason provided").slice(0, 200)]. *)
Definition object_reason (object : Js.value) : string :=
  let r := Js.get (Some object) "reason" in
  let chosen :=
    match r with
    | Some v => if Js.truthy r then v else Js.JStr "No reason provided"
    | None => Js.JStr "No reason provided"
    end in
  Js.slice0 200 (ToString chosen).

Definition detection_of_object (object : Js.value) (prov : string) : Detection :=
  let score := object_score object in
  {| score := score;
     label := label_of score;
     reason := object_reason object;
     provider := prov |}.

(** The score of the text branch: [Math.round] of the clamped
    [Number(safe.data.score)]. *)
Definition text_score (data : SchemaData) : Js.number :=
  let rawScore := Number (Some (Js.JNum (data_score data))) in
  clamp_round rawScore.

Definition detection_of_data (data : SchemaData) (prov : string) : Detection :=
  let score := text_score data in
  {| score := score;
     label := label_of score;
     reason := Js.slice0 200 (ToString (Js.JStr (data_reason data)));
     provider := prov |}.

(** *** The provider chain *)

(** [mimeType: file.type || "image/jpeg"]. *)
Definition mime_of (file : File) : string :=
  if Js.truthy_string (file_type file) then file_type file else "image/jpeg".

Definition default_candidates : list string :=
  [ "openai/gpt-4o"; "google/gemini-1.5-pro"; "anthropic/claude-3.5-sonnet" ].

(** [candidates]: the comma-separated override, else the default sequence. *)
Definition candidates (env : Env) : list string :=
  match OPENROUTER_MODEL env with
  | Some s =>
      if Js.truthy_string s
      then filter Js.truthy_string (map Js.trim (Js.split "," s))
      else default_candidates
  | None => default_candidates
  end.

(** The inner [try] of the loop body: [generateText], then JSON extraction
    and the schema; [None] when it throws. *)
Definition attempt_text (file : File) (bytes : list byte) (modelName : string)
    (w : World) : option Detection * World :=
  match generateText (OpenRouterModel modelName) (mime_of file) bytes w with
  | (Some text, w') =>
      let parsed :=
        extractJsonObject (if Js.truthy_string text then text else EmptyString) in
      match safeParse parsed with
      | Some data =>
          (Some (detection_of_data data ("openrouter:" ++ modelName)), w')
      | None => (None, w')
      end
  | (None, w') => (None, w')
  end.

(** One iteration of [for (const modelName of candidates)]: [Some] when it
    returns a response, [None] when the loop goes on. *)
Definition attempt_openrouter (file : File) (bytes : list byte)
    (modelName : string) (w : World) : option Detection * World :=
  match generateObject (OpenRouterModel modelName) (mime_of file) bytes w with
  | (Some object, w') =>
      (Some (detection_of_object object ("openrouter:" ++ modelName)), w')
  | (None, w') => attempt_text file bytes modelName w'
  end.

Fixpoint try_candidates (file : File) (bytes : list byte)
    (models : list string) (w : World) : option Detection * World :=
  match models with
  | [] => (None, w)
  | modelName :: rest =>
      match attempt_openrouter file bytes modelName w with
      | (Some d, w') => (Some d, w')
      | (None, w') => try_candidates file bytes rest w'
      end
  end.

(** The [try] of the xAI branch. *)
Definition attempt_xai (file : File) (bytes : list byte) (w : World)
    : option Detection * World :=
  match generateObject (XaiModel "grok-4") (mime_of file) bytes w with
  | (Some object, w') => (Some (detection_of_object object "grok-4"), w')
  | (None, w') => (None, w')
  end.

(** *** The fallback heuristic *)

Definition reasons : list string :=
  [ "Texture regularity suggests model synthesis.";
    "Natural sensor noise patterns detected.";
    "EXIF fields appear atypical for camera devices.";
    "Frequency components hint at generative priors.";
    "Compression artifacts align with human-captured photos.";
    "Watermark-like traces near edges.";
    "Noise signature resembles demosaicing from real sensors.";
    "Classifier confidence near boundary threshold." ].

(** [view[i]] for [i] within the array. *)
Definition byte_at (view : list byte) (i : nat) : Z :=
  Z.of_N (Byte.to_N (nth i view x00)).

(** [Math.max(1, Math.floor(view.length / 1024))]. *)
Definition step_of (view : list byte) : nat :=
  Nat.max 1 (Js.floor_div (List.length view) 1024).

(** [for (let i = ...; i < view.length; i += step) hash = (hash * 31 + view[i]) >>> 0],
    from the state [(i, hash)]; [None] when the loop has not exited within
    [fuel] tests of its condition. *)
Fixpoint hash_loop (fuel : nat) (view : list byte) (step i : nat) (hash : Z)
    : option Z :=
  match fuel with
  | O => None
  | S fuel' =>
      if (i <? List.length view)%nat
      then hash_loop fuel' view step (i + step)
             (Js.to_uint32 (hash * 31 + byte_at view i))
      else Some hash
  end.

(** The value of [hash] after the loop.  The condition is tested at most
    [view.length + 1] times ([hash_loop_exits]). *)
Definition fallback_hash (view : list byte) : Z :=
  match hash_loop (S (List.length view)) view (step_of view) 0 0 with
  | Some hash => hash
  | None => 0
  end.

Definition fallback (view : list byte) : Detection :=
  let hash := fallback_hash view in
  let score := Js.of_Z (hash mod 101) in
  {| score := score;
     label := label_of score;
     reason := nth (Z.to_nat (hash mod Z.of_nat (List.length reasons))) reasons
                 EmptyString;
     provider := "fallback" |}.

(** *** POST *)

Definition maxBytes : Z := 6 * 1024 * 1024.

(** What a [try] block does: it returns a response or throws. *)
Inductive completion : Type :=
| Return (r : NextResponse)
| Throw.

(** The providers and the fallback, once the image bytes are read. *)
Definition detect (env : Env) (file : File) (bytes : list byte) (w : World)
    : Detection * World :=
  let hasOpenRouter := env_truthy (OPENROUTER_API_KEY env) in
  let after_openrouter :=
    if hasOpenRouter then try_candidates file bytes (candidates env) w
    else (None, w) in
  match after_openrouter with
  | (Some d, w1) => (d, w1)
  | (None, w1) =>
      let hasXai := env_truthy (XAI_API_KEY env) in
      let after_xai :=
        if hasXai then attempt_xai file bytes w1 else (None, w1) in
      match after_xai with
      | (Some d, w2) => (d, w2)
      | (None, w2) => (fallback bytes, w2)
      end
  end.

(** [form.get("image") ?? form.get("file")]. *)
Definition form_file (form : FormData) : option entry :=
  match form_get "image" form with
  | Some e => Some e
  | None => form_get "file" form
  end.

(** The body of the outer [try] of [POST]. *)
Definition POST_try (env : Env) (req : NextRequest) (w : World)
    : completion * World :=
  match formData req with
  | None => (Return (TextResponse "Expected multipart/form-data" 400), w)
  | Some form =>
      match form_file form with
      | Some (EntryFile file) =>
          if negb (Js.startsWith (file_type file) "image/")
          then (Return (TextResponse "Invalid file type" 400), w)
          else if (file_size file >? maxBytes)%Z
          then (Return (TextResponse "Image too large (max 6MB)" 413), w)
          else
            match file_arrayBuffer file with
            | None => (Throw, w)
            | Some bytes =>
                let (d, w') := detect env file bytes w in
                (Return (JsonResponse d), w')
            end
      | Some (EntryString _) | None =>
          (Return (TextResponse "Missing image" 400), w)
      end
  end.

Definition POST (env : Env) (req : NextRequest) (w : World)
    : NextResponse * World :=
  match POST_try env req w with
  | (Return r, w') => (r, w')
  | (Throw, w') => (TextResponse "Server error" 500, w')
  end.

End WithRuntime.

End Route.

(* ================================================================== *)
(** ** The upload widget *)
(* ================================================================== *)

Module Detector.

Local Open Scope string_scope.

Record DisplayResult : Type := {
  verdict : string;
  display_score : Js.number;
  display_reason : string
}.

(** The component's state: one field per [useState]. *)
Record State : Type := {
  file : option Route.File;
  previewUrl : option string;
  loading : bool;
  error : option string;
  result : option DisplayResult
}.

Definition initial : State :=
  {| file := None; previewUrl := None; loading := false; error := None;
     result := None |}.

Definition setFile (f : option Route.File) (st : State) : State :=
  {| file := f; previewUrl := previewUrl st; loading := loading st;
     error := error st; result := result st |}.

Definition setPreviewUrl (u : option string) (st : State) : State :=
  {| file := file st; previewUrl := u; loading := loading st;
     error := error st; result := result st |}.

Definition setLoading (b : bool) (st : State) : State :=
  {| file := file st; previewUrl := previewUrl st; loading := b;
     error := error st; result := result st |}.

Definition setError (e : option string) (st : State) : State :=
  {| file := file st; previewUrl := previewUrl st; loading := loading st;
     error := e; result := result st |}.

Definition setResult (r : option DisplayResult) (st : State) : State :=
  {| file := file st; previewUrl := previewUrl st; loading := loading st;
     error := error st; result := r |}.

Definition MAX_SIZE_BYTES : Z := 5 * 1024 * 1024.

(** [toDisplay]. *)
Definition toDisplay (resp : Route.Detection) : DisplayResult :=
  let s :=
    Js.Math_max (Js.of_Z 0)
      (Js.Math_min (Js.of_Z 100) (Js.Math_round (Route.score resp))) in
  let verdict :=
    if Js.lt s (Js.of_Z 35) then "Human-Captured"
    else if Js.lt s (Js.of_Z 45) then "Most Likely Human-Captured"
    else if Js.le s (Js.of_Z 55) then "Uncertain – borderline case"
    else if Js.le s (Js.of_Z 65) then "Most Likely AI-Generated"
    else "AI-Generated" in
  {| verdict := verdict; display_score := s;
     display_reason := Route.reason resp |}.

Section WithRuntime.
Context `{RT : Runtime}.

(** [onFiles(files)]; [None] stands for [null] or [undefined]. *)
Definition onFiles (files : option (list Route.File)) (st : State) : State :=
  match files with
  | None | Some [] => st
  | Some (f :: _) =>
      let st := setError None st in
      let st := setResult None st in
      if negb (Js.startsWith (Route.file_type f) "image/")
      then setError (Some "Please upload a valid image file.") st
      else if (Route.file_size f >? MAX_SIZE_BYTES)%Z
      then setError (Some "Image is too large. Please select a file under 5MB.") st
      else
        let st := setFile (Some f) st in
        let url := createObjectURL (Route.file_type f) (Route.file_size f) in
        setPreviewUrl (Some url) st
  end.

(** The request [analyze] sends: a form whose [image] field is the file. *)
Definition request_of (f : Route.File) : Route.NextRequest :=
  {| Route.formData := Some [("image", Route.EntryFile f)] |}.

(** [analyze()], the [fetch] being answered by the endpoint under [env]. *)
Definition analyze (env : Route.Env) (st : State) (w : World) : State * World :=
  match file st with
  | None => (setError (Some "Please select an image first.") st, w)
  | Some f =>
      let st := setLoading true st in
      let st := setError None st in
      let st := setResult None st in
      let (res, w') := Route.POST env (request_of f) w in
      let st :=
        match res with
        | Route.JsonResponse data => setResult (Some (toDisplay data)) st
        | Route.TextResponse msg _ =>
            (* [!res.ok]: the status of a text response is 400, 413 or 500 *)
            let message := if Js.truthy_string msg then msg else "Request failed" in
            setError
              (Some (if Js.truthy_string message then message
                     else "Something went wrong.")) st
        end in
      (setLoading false st, w')
  end.

(** The states the widget reaches from [initial]. *)
Inductive reachable (env : Route.Env) : State -> Prop :=
| reach_initial : reachable env initial
| reach_onFiles st files :
    reachable env st -> reachable env (onFiles files st)
| reach_analyze st w :
    reachable env st -> reachable env (fst (analyze env st w)).

End WithRuntime.

End Detector.

(* ================================================================== *)
(** ** The specification's wording *)
(* ================================================================== *)

(** The definitions of this module follow the sentences of the
    specification, not the code; the theorems below compare the two. *)
Module Spec.

(** The sampled indices [0, step, 2*step, ...] below [n]: the multiples of
    [step] among [0 .. n-1], in increasing order. *)
Definition sampled_indices (n step : nat) : list nat :=
  filter (fun i => (i mod step =? 0)%nat) (seq 0 n).

(** [step = max(1, floor(n / 1024))]. *)
Definition step (n : nat) : nat := Nat.max 1 (n / 1024).

(** The rolling hash: [h -> (h * 31 + b[i]) mod 2^32] folded over the
    sampled indices from [h = 0]. *)
Definition rolling_hash (b : list byte) : Z :=
  fold_left
    (fun h i => ((h * 31 + Z.of_N (Byte.to_N (nth i b x00))) mod 2 ^ 32)%Z)
    (sampled_indices (List.length b) (step (List.length b)))
    0%Z.

(** [round(min(100, max(0, x)))], a non-finite [x] replaced by 50 first. *)
Definition normalized_score (rawScore : Js.number) : Js.number :=
  let x := if Js.isFinite rawScore then rawScore else Js.of_Z 50 in
  Js.Math_round (Js.Math_min (Js.of_Z 100) (Js.Math_max (Js.of_Z 0) x)).

(** The three-way label of an integer score. *)
Definition label (s : Z) : string :=
  if (s <? 45)%Z then "Human-Captured"%string
  else if (s <=? 55)%Z then "Uncertain"%string
  else "AI-Generated"%string.

(** The shape of a successful response. *)
Definition well_shaped (d : Route.Detection) : Prop :=
  (exists s : Z, Route.score d = Js.of_Z s /\ (0 <= s <= 100)%Z) /\
  (Route.label d = "AI-Generated"%string \/
   Route.label d = "Human-Captured"%string \/
   Route.label d = "Uncertain"%string) /\
  (String.length (Route.reason d) <= 200)%nat.

(** A detection is normal when its score is an integer in 0..100, its label
    is the label of that score and its reason has at most 200 characters. *)
Definition normal (d : Route.Detection) : Prop :=
  exists s : Z,
    Route.score d = Js.of_Z s /\ (0 <= s <= 100)%Z /\
    Route.label d = label s /\
    (String.length (Route.reason d) <= 200)%nat.

(** The providers of the chain. *)
Inductive provider : Type :=
| OpenRouter (modelName : string)
| Grok4.

(** The name a response gives to a provider. *)
Definition provider_name (p : provider) : string :=
  match p with
  | OpenRouter modelName => ("openrouter:" ++ modelName)%string
  | Grok4 => "grok-4"%string
  end.

(** A provider is configured when its key is set to a non-empty value. *)
Definition configured (key : option string) : bool :=
  match key with
  | Some (String _ _) => true
  | _ => false
  end.

(** The OpenRouter model list: the comma-separated override with entries
    trimmed and empties dropped, else the static sequence. *)
Definition openrouter_models (env : Route.Env) : list string :=
  match Route.OPENROUTER_MODEL env with
  | Some (String c s) =>
      filter (fun m => negb (String.eqb m EmptyString))
        (map Js.trim (Js.split "," (String c s)))
  | _ =>
      [ "openai/gpt-4o"; "google/gemini-1.5-pro";
        "anthropic/claude-3.5-sonnet" ]%string
  end.

(** The priority order: the OpenRouter models in list order, then grok-4,
    each among the configured providers only. *)
Definition plan (env : Route.Env) : list provider :=
  (if configured (Route.OPENROUTER_API_KEY env)
   then map OpenRouter (openrouter_models env) else []) ++
  (if configured (Route.XAI_API_KEY env) then [Grok4] else []).

(** A log entry that records a failed attempt. *)
Definition failed (p : provider) : provider * option Route.Detection :=
  (p, None).

(** The first successful entry of a log. *)
Fixpoint first_success (log : list (provider * option Route.Detection))
    : option (provider * Route.Detection) :=
  match log with
  | [] => None
  | (p, Some d) :: _ => Some (p, d)
  | (_, None) :: rest => first_success rest
  end.


Section WithRuntime.
Context `{RT : Runtime}.

(** The SDK model a provider stands for. *)
Definition sdk_model (p : provider) : model :=
  match p with
  | OpenRouter modelName => OpenRouterModel modelName
  | Grok4 => XaiModel "grok-4"
  end.

(** One attempt at a provider, by the calls it makes to the SDK.  The image
    bytes are sent under the type of the file, [image/jpeg] when it has
    none.  The provider's model is first asked for an object: when that
    call returns, the attempt succeeds with the detection normalised from
    the object returned.  When it throws, an OpenRouter model is asked for
    text: the attempt succeeds when the JSON extracted from that text passes
    the schema, with the detection normalised from the validated data.
    Every success names the provider; everything else is a failure. *)
Definition attempt (file : Route.File) (bytes : list byte) (p : provider)
    (w : World) : option Route.Detection * World :=
  let mime :=
    match Route.file_type file with
    | EmptyString => "image/jpeg"%string
    | t => t
    end in
  match generateObject (sdk_model p) mime bytes w with
  | (Some object, w1) =>
      (Some (Route.detection_of_object object (provider_name p)), w1)
  | (None, w1) =>
      match p with
      | OpenRouter _ =>
          match generateText (sdk_model p) mime bytes w1 with
          | (Some text, w2) =>
              match Route.safeParse (Route.extractJsonObject text) with
              | Some data =>
                  (Some (Route.detection_of_data data (provider_name p)), w2)
              | None => (None, w2)
              end
          | (None, w2) => (None, w2)
          end
      | Grok4 => (None, w1)
      end
  end.

(** The attempts made when the providers of [ps] are tried in order until
    one succeeds: each with its outcome, and the world they leave. *)
Fixpoint attempts (file : Route.File) (bytes : list byte) (ps : list provider)
    (w : World) : list (provider * option Route.Detection) * World :=
  match ps with
  | [] => ([], w)
  | p :: rest =>
      match attempt file bytes p w with
      | (Some d, w') => ([(p, Some d)], w')
      | (None, w') =>
          let (log, w'') := attempts file bytes rest w' in
          (failed p :: log, w'')
      end
  end.

(** The candidates of the repair, in the order they are tried: the content
    of a [```json] block, the content of any fenced block, the text from the
    first [{] to the last [}] without its trailing commas. *)
Definition repair_candidates (text : string) : list string :=
  (match Js.match_between true Route.fence_json Route.fence text with
   | Some (String c cs) => [Js.trim (String c cs)]
   | _ => []
   end) ++
  (match Js.match_between false Route.fence Route.fence text with
   | Some (String c cs) => [Js.trim (String c cs)]
   | _ => []
   end) ++
  (match Route.brace_block text with
   | Some block => [Route.remove_trailing_commas block]
   | None => []
   end).

(** The first candidate that parses, [null] when none does. *)
Fixpoint first_parsed (cands : list string) : Js.value :=
  match cands with
  | [] => Js.JNull
  | c :: rest =>
      match JSON_parse c with
      | Some v => v
      | None => first_parsed rest
      end
  end.

Definition extractJsonObject (text : string) : Js.value :=
  match text with
  | EmptyString => Js.JNull
  | _ => first_parsed (repair_candidates text)
  end.

End WithRuntime.

End Spec.

(* ================================================================== *)
(** ** A concrete runtime *)
(* ================================================================== *)

(** A runtime small enough to run the handlers on: the world counts the
    provider calls, OpenRouter's first default model always throws, its
    other models throw on [generateObject] and answer [generateText] with a
    fenced object, grok-4 returns an object. *)
Module Demo.

Local Open Scope string_scope.

Definition dq : string := String (ascii_of_nat 34) EmptyString.
Definition lf : string := String (ascii_of_nat 10) EmptyString.

(** [{"score": 72, "reason": "Smooth textures"}] *)
Definition object_text : string :=
  "{" ++ dq ++ "score" ++ dq ++ ": 72, " ++ dq ++ "reason" ++ dq ++ ": "
      ++ dq ++ "Smooth textures" ++ dq ++ "}".

(** The same with a comma before the closing brace. *)
Definition object_text_comma : string :=
  "{" ++ dq ++ "score" ++ dq ++ ": 72, " ++ dq ++ "reason" ++ dq ++ ": "
      ++ dq ++ "Smooth textures" ++ dq ++ ",}".

Definition object_value : Js.value :=
  Js.JObj [ ("score", Js.JNum (Js.of_Z 72)); ("reason", Js.JStr "Smooth textures") ].

(** A model's answer: the object in a [```json] block. *)
Definition fenced_answer : string :=
  "```json" ++ lf ++ object_text ++ lf ++ "```".

(** A model's answer: the object with a trailing comma in a [```json] block. *)
Definition fenced_answer_comma : string :=
  "```json" ++ lf ++ object_text_comma ++ lf ++ "```".

#[local] Instance runtime : Runtime := {|
  World := nat;
  JSON_parse := fun s =>
    if String.eqb s object_text then Some object_value else None;
  StringToNumber := fun _ => Js.NaN;
  NumberToString := fun _ => "0";
  ObjectToString := fun _ => "[object Object]";
  generateObject := fun m _ _ w =>
    match m with
    | OpenRouterModel _ => (None, S w)
    | XaiModel _ => (Some (Js.JObj [ ("score", Js.JNum (Js.Finite (1234 # 10))) ]), S w)
    end;
  generateText := fun m _ _ w =>
    match m with
    | OpenRouterModel "openai/gpt-4o" => (None, S w)
    | _ => (Some fenced_answer, S w)
    end;
  createObjectURL := fun _ _ => "blob:preview"
|}.

Definition png : Route.File :=
  {| Route.file_type := "image/png";
     Route.file_size := 3;
     Route.file_arrayBuffer := Some [x89; x50; x4e] |}.

Definition env_none : Route.Env :=
  {| Route.OPENROUTER_API_KEY := None;
     Route.OPENROUTER_MODEL := None;
     Route.XAI_API_KEY := None |}.

Definition env_both : Route.Env :=
  {| Route.OPENROUTER_API_KEY := Some "sk-or";
     Route.OPENROUTER_MODEL := None;
     Route.XAI_API_KEY := Some "xai" |}.

(** An OpenRouter key with an override that names no model. *)
Definition env_override : Route.Env :=
  {| Route.OPENROUTER_API_KEY := Some "sk-or";
     Route.OPENROUTER_MODEL := Some " , ";
     Route.XAI_API_KEY := None |}.

End Demo.

(* ================================================================== *)
(** ** The radial meter and the render of the widget *)
(* ================================================================== *)

(** The radial meter.  Its geometry multiplies by [Math.PI] and is left
    out; [clamped] is what its label and its text show. *)
Module RadialMeter.

(** [Math.max(0, Math.min(100, value))]. *)
Definition clamped (value : Js.number) : Js.number :=
  Js.Math_max (Js.of_Z 0) (Js.Math_min (Js.of_Z 100) value).

End RadialMeter.

(** The expressions of the widget's JSX that depend on its state. *)
Module View.

Local Open Scope string_scope.

(** [s.includes(sub)]. *)
Definition includes (s sub : string) : bool :=
  match Js.after_first false sub s with
  | Some _ => true
  | None => false
  end.

(** Truthiness of a [string | null]. *)
Definition truthy (v : option string) : bool :=
  match v with
  | Some s => Js.truthy_string s
  | None => false
  end.

(** [value={result?.score ?? 0}]. *)
Definition meter_value (st : Detector.State) : Js.number :=
  match Detector.result st with
  | Some r => Detector.display_score r
  | None => Js.of_Z 0
  end.

(** The [colorClass] passed to the meter. *)
Definition meter_colorClass (st : Detector.State) : string :=
  match Detector.result st with
  | Some r =>
      if Js.le (Detector.display_score r) (Js.of_Z 45) then "text-zinc-400"
      else if Js.le (Detector.display_score r) (Js.of_Z 55) then "text-amber-300"
      else "text-emerald-400"
  | None => "text-emerald-400"
  end.

(** The colour of the verdict line. *)
Definition verdict_class (r : Detector.DisplayResult) : string :=
  if includes (Detector.verdict r) "AI" then "text-emerald-300"
  else "text-zinc-100".

(** [!previewUrl ? upload button : preview with Change and Analyze]. *)
Definition shows_analyze (st : Detector.State) : bool :=
  truthy (Detector.previewUrl st).

(** [loading && ...]. *)
Definition shows_loading (st : Detector.State) : bool := Detector.loading st.

(** [error && !loading && ...]. *)
Definition shows_error (st : Detector.State) : bool :=
  truthy (Detector.error st) && negb (Detector.loading st).

(** [result && !loading && ...]. *)
Definition shows_result (st : Detector.State) : bool :=
  match Detector.result st with
  | Some _ => negb (Detector.loading st)
  | None => false
  end.

End View.

(** The widget with its requests in flight.  [analyze] is asynchronous: it
    runs up to [await fetch], the other handlers of the widget may then run,
    and it resumes once the request is settled. *)
Module Session.

Local Open Scope string_scope.

(** What [analyze] observes of a settled request: [fetch], [res.text()] or
    [res.json()] rejected with an error of that message (empty when the
    error has none); or the response was not [ok] and had that text; or it
    was [ok] and [res.json()] gave that data. *)
Inductive fetched : Type :=
| Rejected (message : string)
| NotOk (text : string)
| Ok (data : Route.Detection).

(** [res.ok]. *)
Definition ok (status : Z) : bool :=
  ((200 <=? status) && (status <=? 299))%Z.

(** How a response of the endpoint is observed. *)
Inductive observes : Route.NextResponse -> fetched -> Prop :=
| observes_json (d : Route.Detection) :
    observes (Route.JsonResponse d) (Ok d)
| observes_text (msg : string) (status : Z) :
    ok status = false ->
    observes (Route.TextResponse msg status) (NotOk msg).

(** [analyze] up to [await fetch]: the new state and the request sent, if
    one is. *)
Definition analyze_start (st : Detector.State)
    : Detector.State * option Route.NextRequest :=
  match Detector.file st with
  | None =>
      (Detector.setError (Some "Please select an image first.") st, None)
  | Some f =>
      let st := Detector.setLoading true st in
      let st := Detector.setError None st in
      let st := Detector.setResult None st in
      (st, Some {| Route.formData := Some [("image", Route.EntryFile f)] |})
  end.

(** [analyze] from the settled request on: the [try] after [await fetch],
    its [catch] and its [finally]. *)
Definition analyze_finish (o : fetched) (st : Detector.State)
    : Detector.State :=
  let st :=
    match o with
    | Ok data => Detector.setResult (Some (Detector.toDisplay data)) st
    | NotOk msg =>
        let message := if Js.truthy_string msg then msg else "Request failed" in
        Detector.setError
          (Some (if Js.truthy_string message then message
                 else "Something went wrong.")) st
    | Rejected message =>
        Detector.setError
          (Some (if Js.truthy_string message then message
                 else "Something went wrong.")) st
    end in
  Detector.setLoading false st.

Section WithRuntime.
Context `{RT : Runtime}.

(** The states the widget reaches, with the requests not yet settled.  The
    Analyze button is rendered with a preview and disabled while loading;
    files may be dropped or chosen at any time; a request is settled by a
    response of the endpoint or by a rejection. *)
Inductive reachable (env : Route.Env)
    : Detector.State -> list Route.NextRequest -> Prop :=
| reach_initial : reachable env Detector.initial []
| reach_onFiles st pending files :
    reachable env st pending ->
    reachable env (Detector.onFiles files st) pending
| reach_click st pending :
    reachable env st pending ->
    View.shows_analyze st = true ->
    Detector.loading st = false ->
    reachable env (fst (analyze_start st))
      (match snd (analyze_start st) with
       | Some req => req :: pending
       | None => pending
       end)
| reach_response st before req after w o :
    reachable env st (before ++ req :: after) ->
    observes (fst (Route.POST env req w)) o ->
    reachable env (analyze_finish o st) (before ++ after)
| reach_rejection st before req after message :
    reachable env st (before ++ req :: after) ->
    reachable env (analyze_finish (Rejected message) st) (before ++ after).

End WithRuntime.

End Session.

(** Vocabulary for statements about strings. *)
Module Text.

(** The characters of a string. *)
Definition chars (s : string) : list ascii := list_ascii_of_string s.

Definition first_char (s : string) : option ascii :=
  match s with
  | EmptyString => None
  | String c _ => Some c
  end.

Fixpoint last_char (s : string) : option ascii :=
  match s with
  | EmptyString => None
  | String c EmptyString => Some c
  | String _ s' => last_char s'
  end.

(** Is the character a comma or white space? *)
Definition comma_or_space (c : ascii) : bool :=
  Ascii.eqb c "," || Js.is_space c.

(** Does the string neither start nor end with white space? *)
Definition trimmed (s : string) : Prop :=
  (forall c, first_char s = Some c -> Js.is_space c = false) /\
  (forall c, last_char s = Some c -> Js.is_space c = false).

End Text.

(* ================================================================== *)
(** ** Properties *)
(* ================================================================== *)

(** *** The fallback heuristic *)

Section HashLoop.

Variable view : list byte.
Variable step : nat.
Hypothesis step_pos : (0 < step)%nat.

Local Abbreviation n := (List.length view).
Local Abbreviation f :=
  (fun (h : Z) (i : nat) => Js.to_uint32 (h * 31 + Route.byte_at view i)).
Local Abbreviation multiple := (fun i : nat => (i mod step =? 0)%nat).

(** No multiple of [step] lies strictly between two consecutive ones. *)
Lemma filter_gap (i a len : nat) :
  (i mod step = 0)%nat -> (i < a)%nat -> (a + len <= i + step)%nat ->
  filter multiple (seq a len) = [].
Proof.
  intros Hi Ha Hb.
  revert a Ha Hb. induction len as [|len IH]; intros a Ha Hb; [reflexivity|].
  cbn [seq filter].
  assert (Hm : multiple a = false).
  { cbv beta. apply Nat.eqb_neq. intro Ha0.
    apply Nat.Div0.mod_divides in Hi. destruct Hi as [k Hk].
    apply Nat.Div0.mod_divides in Ha0. destruct Ha0 as [k' Hk'].
    subst i a.
    assert (k < k')%nat by nia.
    assert (k' < k + 1)%nat by nia. lia. }
  rewrite Hm. apply IH; lia.
Qed.

(** From a multiple [i] of [step], with more fuel than indices left, the
    loop exits, having folded the step function over the multiples of [step]
    in [i .. n-1]. *)
Lemma hash_loop_run (fuel : nat) :
  forall (i : nat) (h : Z),
    (i mod step = 0)%nat -> (n - i < fuel)%nat ->
    Route.hash_loop fuel view step i h =
    Some (fold_left f (filter multiple (seq i (n - i))) h).
Proof.
  induction fuel as [|fuel IH]; intros i h Hi Hfuel; [lia|].
  cbn [Route.hash_loop].
  destruct (Nat.ltb_spec i n) as [Hlt|Hge].
  - replace (n - i)%nat with (S (n - i - 1)) by lia.
    cbn [seq filter].
    assert (Hm : multiple i = true) by (cbv beta; now apply Nat.eqb_eq).
    rewrite Hm. cbn [fold_left].
    assert (Hrest : filter multiple (seq (S i) (n - i - 1)) =
                    filter multiple (seq (i + step) (n - (i + step)))).
    { destruct (Nat.le_gt_cases (i + step) n) as [Hle|Hgt].
      - replace (n - i - 1)%nat with ((step - 1) + (n - (i + step)))%nat by lia.
        rewrite seq_app, filter_app.
        rewrite (filter_gap i (S i) (step - 1)) by lia.
        cbn [app]. f_equal. f_equal. lia.
      - rewrite (filter_gap i (S i) (n - i - 1)) by lia.
        replace (n - (i + step))%nat with 0%nat by lia. reflexivity. }
    rewrite Hrest. apply IH.
    + rewrite <- (Nat.Div0.mod_add i 1 step) in Hi.
      now rewrite Nat.mul_1_l in Hi.
    + lia.
  - replace (n - i)%nat with 0%nat by lia. reflexivity.
Qed.

End HashLoop.

(** The step of the loop is the specification's and is positive. *)
Lemma step_of_spec (view : list byte) :
  Route.step_of view = Spec.step (List.length view) /\
  (0 < Route.step_of view)%nat.
Proof.
  unfold Route.step_of, Spec.step, Js.floor_div. split; [reflexivity | lia].
Qed.

(** The sampled indices are the multiples of [step] below [n]. *)
Lemma sampled_indices_spec (n step i : nat) :
  (0 < step)%nat ->
  In i (Spec.sampled_indices n step) <->
  (i < n)%nat /\ exists k : nat, i = (k * step)%nat.
Proof.
  intro Hstep. unfold Spec.sampled_indices.
  rewrite filter_In, in_seq, Nat.eqb_eq, Nat.Div0.mod_divides.
  split.
  - intros [Hlt [k Hk]]. split; [lia|]. exists k. lia.
  - intros [Hlt [k Hk]]. split; [lia|]. exists k. lia.
Qed.

Example sampled_indices_10_3 : Spec.sampled_indices 10 3 = [0; 3; 6; 9]%nat.
Proof. reflexivity. Qed.

Example step_of_4100 : Route.step_of (repeat x00 4100) = 4%nat.
Proof. reflexivity. Qed.

(** The loop exits within [view.length + 1] tests, with the rolling hash;
    more fuel changes nothing. *)
Lemma hash_loop_exits (view : list byte) (fuel : nat) :
  (List.length view < fuel)%nat ->
  Route.hash_loop fuel view (Route.step_of view) 0 0 =
  Some (Spec.rolling_hash view).
Proof.
  intro Hfuel.
  destruct (step_of_spec view) as [Hstep Hpos].
  rewrite (hash_loop_run view (Route.step_of view) Hpos fuel 0 0%Z).
  - rewrite Nat.sub_0_r. unfold Spec.rolling_hash, Spec.sampled_indices.
    rewrite <- Hstep. reflexivity.
  - now apply Nat.Div0.mod_0_l.
  - lia.
Qed.

Lemma fallback_hash_spec (view : list byte) :
  Route.fallback_hash view = Spec.rolling_hash view.
Proof.
  unfold Route.fallback_hash.
  now rewrite hash_loop_exits by lia.
Qed.

(** *** Numbers *)

Section Numbers.

Local Open Scope Q_scope.

(** The clamp of the code, [max(0, min(100, x))], and the clamp of the
    specification, [min(100, max(0, x))], are the same number. *)
Lemma clamp_swap (x : Js.number) :
  Js.Math_max (Js.of_Z 0) (Js.Math_min (Js.of_Z 100) x) =
  Js.Math_min (Js.of_Z 100) (Js.Math_max (Js.of_Z 0) x).
Proof.
  destruct x as [| | |q]; try reflexivity.
  unfold Js.Math_max, Js.Math_min, Js.of_Z, Js.le.
  destruct (Qle_bool (inject_Z 100) q) eqn:E100;
    destruct (Qle_bool (inject_Z 0) q) eqn:E0;
    cbn [Js.le]; rewrite ?E100, ?E0; try reflexivity.
  apply Qle_bool_iff in E100.
  assert (H : inject_Z 0 <= q).
  { apply Qle_trans with (inject_Z 100); [|exact E100].
    apply Qle_bool_iff. reflexivity. }
  apply Qle_bool_iff in H. congruence.
Qed.

(** A clamped finite number lies between 0 and 100. *)
Lemma clamp_finite (q : Q) :
  exists c : Q,
    Js.Math_max (Js.of_Z 0) (Js.Math_min (Js.of_Z 100) (Js.Finite q)) =
    Js.Finite c /\ 0 <= c <= 100.
Proof.
  unfold Js.Math_max, Js.Math_min, Js.of_Z, Js.le.
  destruct (Qle_bool (inject_Z 100) q) eqn:E100.
  - cbn. exists (inject_Z 100). split; [reflexivity|].
    split; apply Qle_bool_iff; reflexivity.
  - destruct (Qle_bool (inject_Z 0) q) eqn:E0.
    + exists q. split; [reflexivity|]. split.
      * now apply Qle_bool_iff in E0.
      * destruct (Qlt_le_dec q 100) as [Hlt|Hge].
        -- now apply Qlt_le_weak.
        -- apply Qle_bool_iff in Hge. unfold inject_Z in E100. congruence.
    + exists (inject_Z 0). split; [reflexivity|].
      split; apply Qle_bool_iff; reflexivity.
Qed.

(** Rounding a number between 0 and 100 gives an integer between 0 and 100. *)
Lemma round_bounds (c : Q) :
  0 <= c <= 100 -> (0 <= Qfloor (c + (1 # 2)) <= 100)%Z.
Proof.
  intros [Hlo Hhi]. split.
  - change 0%Z with (Qfloor (0 + (1 # 2))).
    apply Qfloor_resp_le. now apply Qplus_le_l.
  - change 100%Z with (Qfloor (100 + (1 # 2))).
    apply Qfloor_resp_le. now apply Qplus_le_l.
Qed.

End Numbers.

(** [Math.round] of the clamp of a finite number is an integer in 0..100. *)
Lemma clamp_round_finite (x : Js.number) :
  Js.isFinite x = true ->
  exists s : Z, Route.clamp_round x = Js.of_Z s /\ (0 <= s <= 100)%Z.
Proof.
  destruct x as [| | |q]; try discriminate. intros _.
  unfold Route.clamp_round.
  destruct (clamp_finite q) as [c [Hc Hb]]. rewrite Hc.
  exists (Qfloor (c + (1 # 2))). split; [reflexivity|].
  now apply round_bounds.
Qed.

(** The label of an integer score follows the two thresholds. *)
Lemma label_of_int (s : Z) :
  Route.label_of (Js.of_Z s) = Spec.label s.
Proof.
  unfold Route.label_of, Spec.label, Js.lt, Js.le, Js.of_Z.
  assert (Hle : forall a b : Z, Qle_bool (inject_Z a) (inject_Z b) = (a <=? b)%Z).
  { intros a b. unfold Qle_bool, inject_Z. cbn. now rewrite !Z.mul_1_r. }
  rewrite !Hle.
  destruct (Z.leb_spec 45 s), (Z.ltb_spec s 45); try lia; reflexivity.
Qed.

Lemma spec_label_cases (s : Z) :
  (Spec.label s = "Human-Captured"%string <-> (s < 45)%Z) /\
  (Spec.label s = "Uncertain"%string <-> (45 <= s <= 55)%Z) /\
  (Spec.label s = "AI-Generated"%string <-> (s > 55)%Z).
Proof.
  unfold Spec.label.
  destruct (Z.ltb_spec s 45); [|destruct (Z.leb_spec s 55)];
    repeat split; intros; try lia; try discriminate; reflexivity.
Qed.

(** *** The provider chain *)

Section Chain.

Context `{RT : Runtime}.
Variable file : Route.File.
Variable bytes : list byte.

(** The truthiness test of the code is the specification's "configured". *)
Lemma env_truthy_configured (key : option string) :
  Route.env_truthy key = Spec.configured key.
Proof. destruct key as [[|c s]|]; reflexivity. Qed.

(** The loop body and the xAI branch of the code make the calls of one
    attempt, and build its result from what the SDK returned. *)
Lemma attempt_openrouter_spec (modelName : string) (w : World) :
  Route.attempt_openrouter file bytes modelName w =
  Spec.attempt file bytes (Spec.OpenRouter modelName) w.
Proof.
  unfold Route.attempt_openrouter, Route.attempt_text, Spec.attempt,
    Route.mime_of.
  cbv zeta. cbn [Spec.sdk_model Spec.provider_name].
  destruct (Route.file_type file) as [|c t]; cbn [Js.truthy_string].
  all: destruct (generateObject _ _ _ _) as [[object|] w1]; [reflexivity|].
  all: destruct (generateText _ _ _ _) as [[text|] w2]; [|reflexivity].
  all: replace (if Js.truthy_string text then text else EmptyString) with text
    by (destruct text; reflexivity).
  all: reflexivity.
Qed.

Lemma attempt_xai_spec (w : World) :
  Route.attempt_xai file bytes w = Spec.attempt file bytes Spec.Grok4 w.
Proof.
  unfold Route.attempt_xai, Spec.attempt, Route.mime_of.
  cbv zeta. cbn [Spec.sdk_model Spec.provider_name].
  destruct (Route.file_type file) as [|c t]; cbn [Js.truthy_string].
  all: destruct (generateObject _ _ _ _) as [[object|] w1]; reflexivity.
Qed.

(** The candidates of the code are the specification's model list. *)
Lemma candidates_spec (env : Route.Env) :
  Route.candidates env = Spec.openrouter_models env.
Proof.
  unfold Route.candidates, Spec.openrouter_models.
  destruct (Route.OPENROUTER_MODEL env) as [[|c s]|]; try reflexivity.
  cbn [Js.truthy_string]. apply filter_ext.
  intros [|a m]; reflexivity.
Qed.

(** A successful attempt names its provider. *)
Lemma attempt_provider (p : Spec.provider) (w w' : World) (d : Route.Detection) :
  Spec.attempt file bytes p w = (Some d, w') ->
  Route.provider d = Spec.provider_name p.
Proof.
  destruct p as [modelName|].
  - rewrite <- attempt_openrouter_spec. cbn [Spec.provider_name].
    unfold Route.attempt_openrouter, Route.attempt_text.
    destruct (generateObject _ _ _ _) as [[object|] w1].
    + intros [= <- _]. reflexivity.
    + destruct (generateText _ _ _ _) as [[text|] w2]; [|discriminate].
      destruct (Route.safeParse _) as [data|]; [|discriminate].
      intros [= <- _]. reflexivity.
  - rewrite <- attempt_xai_spec. cbn [Spec.provider_name].
    unfold Route.attempt_xai.
    destruct (generateObject _ _ _ _) as [[object|] w1]; [|discriminate].
    intros [= <- _]. reflexivity.
Qed.

(** The log of a run: every provider failed, or the providers before the
    first success failed and the log ends with that success. *)
Lemma attempts_shape (ps : list Spec.provider) :
  forall w : World,
    let log := fst (Spec.attempts file bytes ps w) in
    (log = map Spec.failed ps /\ Spec.first_success log = None) \/
    (exists pre p post d,
        ps = pre ++ p :: post /\
        log = map Spec.failed pre ++ [(p, Some d)] /\
        Spec.first_success log = Some (p, d) /\
        Route.provider d = Spec.provider_name p).
Proof.
  induction ps as [|p rest IH]; intro w; cbn [Spec.attempts].
  - left. split; reflexivity.
  - destruct (Spec.attempt file bytes p w) as [[d|] w'] eqn:Ha.
    + right. exists [], p, rest, d. cbn.
      repeat split. now apply attempt_provider with w w'.
    + specialize (IH w').
      destruct (Spec.attempts file bytes rest w') as [log w''].
      cbn [fst] in *.
      destruct IH as [[Hlog Hnone]|(pre & q & post & d & Hps & Hlog & Hfs & Hprov)].
      * left. cbn. rewrite Hlog. split; [reflexivity|].
        now rewrite <- Hlog.
      * right. exists (p :: pre), q, post, d. cbn.
        rewrite Hps, Hlog. repeat split; try assumption.
        now rewrite <- Hlog.
Qed.

(** A run over [ps1 ++ ps2] is the run over [ps1], continued over [ps2]
    when no provider of [ps1] succeeds. *)
Lemma attempts_app (ps1 ps2 : list Spec.provider) :
  forall w : World,
    Spec.attempts file bytes (ps1 ++ ps2) w =
    let (log1, w1) := Spec.attempts file bytes ps1 w in
    match Spec.first_success log1 with
    | Some _ => (log1, w1)
    | None =>
        let (log2, w2) := Spec.attempts file bytes ps2 w1 in
        (log1 ++ log2, w2)
    end.
Proof.
  induction ps1 as [|p rest IH]; intro w; cbn [app Spec.attempts].
  - destruct (Spec.attempts file bytes ps2 w). reflexivity.
  - destruct (Spec.attempt file bytes p w) as [[d|] w'].
    + reflexivity.
    + rewrite IH.
      destruct (Spec.attempts file bytes rest w') as [log1 w1].
      cbn [Spec.first_success Spec.failed].
      destruct (Spec.first_success log1); [reflexivity|].
      destruct (Spec.attempts file bytes ps2 w1). reflexivity.
Qed.

Lemma first_success_app (log1 log2 : list (Spec.provider * option Route.Detection)) :
  Spec.first_success log1 = None ->
  Spec.first_success (log1 ++ log2) = Spec.first_success log2.
Proof.
  induction log1 as [|[p [d|]] rest IH]; cbn; intro H;
    [reflexivity | discriminate | now apply IH].
Qed.

(** The [for] loop over the candidates is the run over the OpenRouter
    providers of these names. *)
Lemma try_candidates_attempts (models : list string) :
  forall w : World,
    Route.try_candidates file bytes models w =
    let (log, w') := Spec.attempts file bytes (map Spec.OpenRouter models) w in
    (option_map snd (Spec.first_success log), w').
Proof.
  induction models as [|m rest IH]; intro w;
    cbn [map Route.try_candidates Spec.attempts].
  - reflexivity.
  - rewrite <- attempt_openrouter_spec.
    destruct (Route.attempt_openrouter file bytes m w) as [[d|] w'].
    + reflexivity.
    + rewrite IH.
      destruct (Spec.attempts file bytes (map Spec.OpenRouter rest) w').
      reflexivity.
Qed.

(** [detect] returns the first success of the run over the plan, and the
    fallback when there is none; it leaves the world of that run. *)
Lemma detect_first_success (env : Route.Env) (w : World) :
  Route.detect env file bytes w =
  let (log, w') := Spec.attempts file bytes (Spec.plan env) w in
  (match Spec.first_success log with
   | Some (_, d) => d
   | None => Route.fallback bytes
   end, w').
Proof.
  unfold Route.detect, Spec.plan. cbv zeta.
  rewrite (env_truthy_configured (Route.OPENROUTER_API_KEY env)).
  rewrite (env_truthy_configured (Route.XAI_API_KEY env)).
  rewrite candidates_spec, attempts_app.
  destruct (Spec.configured (Route.OPENROUTER_API_KEY env)).
  - rewrite try_candidates_attempts.
    destruct (Spec.attempts file bytes (map Spec.OpenRouter _) w) as [log1 w1].
    destruct (Spec.first_success log1) as [[p d]|] eqn:H1; cbn [option_map snd].
    + rewrite H1. reflexivity.
    + destruct (Spec.configured (Route.XAI_API_KEY env));
        cbn [Spec.attempts]; rewrite <- ?attempt_xai_spec.
      * destruct (Route.attempt_xai file bytes w1) as [[d|] w2].
        -- rewrite first_success_app by assumption. reflexivity.
        -- rewrite first_success_app by assumption. reflexivity.
      * rewrite app_nil_r, H1. reflexivity.
  - cbn [Spec.attempts Spec.first_success app].
    destruct (Spec.configured (Route.XAI_API_KEY env));
      cbn [Spec.attempts]; rewrite <- ?attempt_xai_spec.
    + destruct (Route.attempt_xai file bytes w) as [[d|] w2]; reflexivity.
    + reflexivity.
Qed.




End Chain.

(** *** The shape of a detection *)

Lemma slice0_length (n : nat) :
  forall s : string, (String.length (Js.slice0 n s) <= n)%nat.
Proof.
  unfold Js.slice0.
  induction n as [|n IH]; intros [|c s]; cbn; try lia.
  specialize (IH s). lia.
Qed.

Lemma reasons_short :
  Forall (fun r => (String.length r < 200)%nat) Route.reasons.
Proof. unfold Route.reasons. repeat constructor; cbn; lia. Qed.

Lemma normal_well_shaped (d : Route.Detection) :
  Spec.normal d -> Spec.well_shaped d.
Proof.
  intros (s & Hs & Hb & Hl & Hr). repeat split.
  - now exists s.
  - rewrite Hl. unfold Spec.label.
    destruct (s <? 45)%Z; [|destruct (s <=? 55)%Z]; auto.
  - exact Hr.
Qed.

Lemma fallback_normal (view : list byte) : Spec.normal (Route.fallback view).
Proof.
  unfold Route.fallback. cbv zeta.
  exists (Route.fallback_hash view mod 101)%Z. cbn [Route.score Route.label Route.reason].
  split; [reflexivity|]. split.
  - pose proof (Z.mod_pos_bound (Route.fallback_hash view) 101). lia.
  - split; [apply label_of_int|].
    destruct (nth_in_or_default
                (Z.to_nat (Route.fallback_hash view
                           mod Z.of_nat (List.length Route.reasons)))
                Route.reasons EmptyString) as [Hin|Hdef].
    + pose proof reasons_short as Hall. rewrite Forall_forall in Hall.
      specialize (Hall _ Hin). lia.
    + rewrite Hdef. cbn. lia.
Qed.

Section Shape.

Context `{RT : Runtime}.

(** The score of a [generateObject] branch is the specification's normalised
    score, an integer in 0..100. *)
Lemma object_score_spec (object : Js.value) :
  Route.object_score object =
  Spec.normalized_score (Route.Number (Js.get (Some object) "score")) /\
  exists s : Z, Route.object_score object = Js.of_Z s /\ (0 <= s <= 100)%Z.
Proof.
  unfold Route.object_score, Route.normalize_score, Spec.normalized_score.
  cbv zeta. set (x := Route.Number _).
  split.
  - unfold Route.clamp_round. rewrite clamp_swap.
    destruct (Js.isFinite x); reflexivity.
  - apply clamp_round_finite. destruct (Js.isFinite x) eqn:E; [exact E|reflexivity].
Qed.

(** A score the schema accepts is finite. *)
Lemma schema_score_finite (v : option Js.value) (n : Js.number) :
  Route.schema_score v = Some n -> Js.isFinite n = true.
Proof.
  unfold Route.schema_score.
  destruct (Route.preprocess_score v) as [[| |m| | |]|]; try discriminate.
  destruct m as [| | |q]; cbn; try discriminate.
  destruct (_ && _); [|discriminate]. intros [= <-]. reflexivity.
Qed.

Lemma schema_reason_length (v : option Js.value) (r : string) :
  Route.schema_reason v = Some r -> (3 <= String.length r <= 200)%nat.
Proof.
  unfold Route.schema_reason.
  destruct v as [[| | |s| |]|]; try discriminate.
  destruct (Nat.leb_spec 3 (String.length s)); cbn [andb]; [|discriminate].
  destruct (Nat.leb_spec (String.length s) 200); [|discriminate].
  intros [= <-]. lia.
Qed.

Lemma safeParse_finite (v : Js.value) (data : Route.SchemaData) :
  Route.safeParse v = Some data ->
  Js.isFinite (Route.data_score data) = true.
Proof.
  unfold Route.safeParse.
  destruct v as [| | | | |props]; try discriminate.
  destruct (Route.schema_score _) as [n|] eqn:Hs; [|discriminate].
  destruct (Route.schema_reason _) as [r|]; [|discriminate].
  intros [= <-]. cbn. now apply schema_score_finite in Hs.
Qed.

(** The score of the text branch is the specification's normalised score,
    an integer in 0..100. *)
Lemma text_score_spec (v : Js.value) (data : Route.SchemaData) :
  Route.safeParse v = Some data ->
  Route.text_score data = Spec.normalized_score (Route.data_score data) /\
  exists s : Z, Route.text_score data = Js.of_Z s /\ (0 <= s <= 100)%Z.
Proof.
  intro Hsafe. apply safeParse_finite in Hsafe.
  unfold Route.text_score, Spec.normalized_score. cbv zeta.
  cbn [Route.Number]. rewrite Hsafe. split.
  - unfold Route.clamp_round. now rewrite clamp_swap.
  - now apply clamp_round_finite.
Qed.

Lemma detection_of_object_normal (object : Js.value) (prov : string) :
  Spec.normal (Route.detection_of_object object prov).
Proof.
  destruct (object_score_spec object) as [_ (s & Hs & Hb)].
  exists s. unfold Route.detection_of_object. cbv zeta.
  cbn [Route.score Route.label Route.reason]. rewrite Hs.
  repeat split; try lia.
  - apply label_of_int.
  - apply slice0_length.
Qed.

Lemma detection_of_data_normal (v : Js.value) (data : Route.SchemaData)
    (prov : string) :
  Route.safeParse v = Some data ->
  Spec.normal (Route.detection_of_data data prov).
Proof.
  intro Hsafe.
  destruct (text_score_spec v data Hsafe) as [_ (s & Hs & Hb)].
  exists s. unfold Route.detection_of_data. cbv zeta.
  cbn [Route.score Route.label Route.reason]. rewrite Hs.
  repeat split; try lia.
  - apply label_of_int.
  - apply slice0_length.
Qed.

Lemma attempt_normal (file : Route.File) (bytes : list byte)
    (p : Spec.provider) (w w' : World) (d : Route.Detection) :
  Spec.attempt file bytes p w = (Some d, w') -> Spec.normal d.
Proof.
  destruct p as [modelName|].
  - rewrite <- attempt_openrouter_spec.
    unfold Route.attempt_openrouter, Route.attempt_text.
    destruct (generateObject _ _ _ _) as [[object|] w1].
    + intros [= <- _]. apply detection_of_object_normal.
    + destruct (generateText _ _ _ _) as [[text|] w2]; [|discriminate].
      destruct (Route.safeParse _) as [data|] eqn:Hsafe; [|discriminate].
      intros [= <- _]. eapply detection_of_data_normal, Hsafe.
  - rewrite <- attempt_xai_spec. unfold Route.attempt_xai.
    destruct (generateObject _ _ _ _) as [[object|] w1]; [|discriminate].
    intros [= <- _]. apply detection_of_object_normal.
Qed.

Lemma attempts_normal (file : Route.File) (bytes : list byte)
    (ps : list Spec.provider) :
  forall (w : World) (p : Spec.provider) (d : Route.Detection),
    In (p, Some d) (fst (Spec.attempts file bytes ps w)) -> Spec.normal d.
Proof.
  induction ps as [|q rest IH]; intros w p d; cbn [Spec.attempts].
  - intros [].
  - destruct (Spec.attempt file bytes q w) as [[d'|] w'] eqn:Ha.
    + cbn. intros [[= _ <-]|[]]. eapply attempt_normal, Ha.
    + specialize (IH w' p d).
      destruct (Spec.attempts file bytes rest w') as [log w''].
      cbn in *. intros [H|H]; [discriminate|auto].
Qed.

Lemma first_success_in (log : list (Spec.provider * option Route.Detection))
    (p : Spec.provider) (d : Route.Detection) :
  Spec.first_success log = Some (p, d) -> In (p, Some d) log.
Proof.
  induction log as [|[q [d'|]] rest IH]; cbn.
  - discriminate.
  - intros [= -> ->]. now left.
  - intro H. right. auto.
Qed.

(** Whatever the providers answer, [detect] returns a normal detection. *)
Lemma detect_normal (env : Route.Env) (file : Route.File)
    (bytes : list byte) (w : World) :
  Spec.normal (fst (Route.detect env file bytes w)).
Proof.
  rewrite detect_first_success.
  pose proof (attempts_normal file bytes (Spec.plan env) w) as Hall.
  destruct (Spec.attempts file bytes (Spec.plan env) w) as [log w'].
  cbn [fst] in *.
  destruct (Spec.first_success log) as [[p d]|] eqn:Hfs.
  - apply (Hall p d). now apply first_success_in.
  - apply fallback_normal.
Qed.

(** A JSON response of [POST] is the detection of an accepted file. *)
Lemma POST_json (env : Route.Env) (req : Route.NextRequest) (w w' : World)
    (d : Route.Detection) :
  Route.POST env req w = (Route.JsonResponse d, w') ->
  exists form file bytes,
    Route.formData req = Some form /\
    Route.form_file form = Some (Route.EntryFile file) /\
    Js.startsWith (Route.file_type file) "image/" = true /\
    (Route.file_size file <= Route.maxBytes)%Z /\
    Route.file_arrayBuffer file = Some bytes /\
    Route.detect env file bytes w = (d, w').
Proof.
  unfold Route.POST, Route.POST_try.
  destruct (Route.formData req) as [form|]; [|discriminate].
  destruct (Route.form_file form) as [[file|s]|] eqn:Hfile; try discriminate.
  destruct (Js.startsWith (Route.file_type file) "image/") eqn:Htype;
    cbn [negb]; [|discriminate].
  destruct (Z.gtb_spec (Route.file_size file) Route.maxBytes) as [Hgt|Hle];
    [discriminate|].
  destruct (Route.file_arrayBuffer file) as [bytes|] eqn:Hbuf; [|discriminate].
  destruct (Route.detect env file bytes w) as [d0 w0] eqn:Hd.
  intros [= <- <-].
  exists form, file, bytes. repeat split; auto.
Qed.

End Shape.

(** *** The fallback heuristic, as specified *)

(** No provider is named [fallback]. *)
Lemma provider_name_not_fallback (p : Spec.provider) :
  Spec.provider_name p <> "fallback"%string.
Proof. destruct p; cbn; discriminate. Qed.

(** C1.  For every byte array [b] of length [n], the fallback takes
    [step = max(1, floor(n / 1024))]; its loop exits with the rolling hash
    [h -> (h * 31 + b[i]) mod 2^32] folded from 0 over the multiples of
    [step] below [n]; the score is [hash mod 101], an integer in 0..100, and
    the reason is the entry of index [hash mod 8] of the eight-entry table.
    The result depends on [b] alone: whatever the runtime, the environment,
    the file's metadata and the world, a detection named [fallback] is
    [fallback b]. *)
Theorem fallback_heuristic (b : list byte) :
  let n := List.length b in
  let hash := Spec.rolling_hash b in
  Route.step_of b = Nat.max 1 (n / 1024) /\
  Route.hash_loop (S n) b (Route.step_of b) 0 0 = Some hash /\
  Route.fallback b =
    {| Route.score := Js.of_Z (hash mod 101);
       Route.label := Spec.label (hash mod 101);
       Route.reason := nth (Z.to_nat (hash mod 8)) Route.reasons EmptyString;
       Route.provider := "fallback" |} /\
  (0 <= hash mod 101 <= 100)%Z /\
  List.length Route.reasons = 8%nat /\
  nth_error Route.reasons (Z.to_nat (hash mod 8)) =
    Some (Route.reason (Route.fallback b)) /\
  (forall (RT : Runtime) (env : Route.Env) (file : Route.File) (w : World),
      Route.provider (fst (Route.detect env file b w)) = "fallback"%string ->
      fst (Route.detect env file b w) = Route.fallback b).
Proof.
  cbv zeta.
  assert (Hfb : Route.fallback b =
    {| Route.score := Js.of_Z (Spec.rolling_hash b mod 101);
       Route.label := Spec.label (Spec.rolling_hash b mod 101);
       Route.reason :=
         nth (Z.to_nat (Spec.rolling_hash b mod 8)) Route.reasons EmptyString;
       Route.provider := "fallback" |}).
  { unfold Route.fallback. cbv zeta.
    rewrite fallback_hash_spec, label_of_int. reflexivity. }
  repeat split.
  - apply hash_loop_exits. lia.
  - exact Hfb.
  - pose proof (Z.mod_pos_bound (Spec.rolling_hash b) 101). lia.
  - pose proof (Z.mod_pos_bound (Spec.rolling_hash b) 101). lia.
  - rewrite Hfb. cbn [Route.reason].
    apply nth_error_nth'.
    pose proof (Z.mod_pos_bound (Spec.rolling_hash b) 8).
    change (List.length Route.reasons) with 8%nat. lia.
  - intros RT env file w.
    rewrite detect_first_success.
    pose proof (attempts_shape file b (Spec.plan env) w) as Hshape.
    destruct (Spec.attempts file b (Spec.plan env) w) as [log w'].
    cbn [fst] in *.
    destruct Hshape as [[_ Hnone]|(pre & p & post & d & _ & _ & Hfs & Hprov)].
    + rewrite Hnone. reflexivity.
    + rewrite Hfs. intro Hname. rewrite Hprov in Hname.
      now apply provider_name_not_fallback in Hname.
Qed.

Lemma fallback_heuristic_witness :
  Route.provider
    (fst (Route.detect (RT := Demo.runtime) Demo.env_none Demo.png
            [x89; x50; x4e] 0%nat)) = "fallback"%string /\
  fst (Route.detect (RT := Demo.runtime) Demo.env_none Demo.png
         [x89; x50; x4e] 0%nat) = Route.fallback [x89; x50; x4e].
Proof.
  split; [reflexivity|].
  apply (fallback_heuristic [x89; x50; x4e]). reflexivity.
Defined.

Example fallback_png_header :
  Route.fallback [x89; x50; x4e] =
  {| Route.score := Js.of_Z 87;
     Route.label := "AI-Generated";
     Route.reason := "Classifier confidence near boundary threshold.";
     Route.provider := "fallback" |}.
Proof. reflexivity. Qed.

(** *** Normalisation, as specified *)

(** C3.  For every raw score [x], the normaliser of the [generateObject]
    branches (OpenRouter and xAI) returns
    [round(min(100, max(0, x)))] with a non-finite [x] replaced by 50, an
    integer in 0..100; the text branch, whose raw score has passed the
    schema and is finite, returns the same. *)
Theorem score_normalization `{RT : Runtime} :
  (forall x : Js.number,
      Route.normalize_score x = Spec.normalized_score x /\
      exists s : Z, Route.normalize_score x = Js.of_Z s /\ (0 <= s <= 100)%Z) /\
  (forall object : Js.value,
      Route.object_score object =
      Spec.normalized_score (Route.Number (Js.get (Some object) "score"))) /\
  (forall (v : Js.value) (data : Route.SchemaData),
      Route.safeParse v = Some data ->
      Route.text_score data = Spec.normalized_score (Route.data_score data) /\
      exists s : Z, Route.text_score data = Js.of_Z s /\ (0 <= s <= 100)%Z).
Proof.
  split; [|split].
  - intro x. unfold Route.normalize_score, Spec.normalized_score. cbv zeta.
    split.
    + unfold Route.clamp_round. rewrite clamp_swap.
      destruct (Js.isFinite x); reflexivity.
    + apply clamp_round_finite.
      destruct (Js.isFinite x) eqn:E; [exact E|reflexivity].
  - intro object. apply object_score_spec.
  - intros v data Hsafe. now apply text_score_spec with v.
Qed.

Lemma score_normalization_witness :
  Route.safeParse (RT := Demo.runtime) Demo.object_value =
    Some {| Route.data_score := Js.of_Z 72;
            Route.data_reason := "Smooth textures" |} /\
  Route.text_score (RT := Demo.runtime)
    {| Route.data_score := Js.of_Z 72; Route.data_reason := "Smooth textures" |} =
  Spec.normalized_score (Js.of_Z 72).
Proof.
  split; [reflexivity|].
  apply (proj2 (proj2 (score_normalization (RT := Demo.runtime)))
           Demo.object_value).
  reflexivity.
Defined.

Example normalize_half : Route.normalize_score (Js.Finite (445 # 10)) = Js.of_Z 45.
Proof. reflexivity. Qed.

Example normalize_nan : Route.normalize_score Js.NaN = Js.of_Z 50.
Proof. reflexivity. Qed.

Example normalize_large : Route.normalize_score (Js.Finite 1234) = Js.of_Z 100.
Proof. reflexivity. Qed.

Example normalize_negative : Route.normalize_score Js.NegInfinity = Js.of_Z 50.
Proof. reflexivity. Qed.

(** C4.  On every path that answers with JSON, the score is an integer
    [s] and the label is one of three strings fixed by [s]:
    Human-Captured iff [s < 45], Uncertain iff [45 <= s <= 55],
    AI-Generated iff [s > 55]. *)
Theorem label_thresholds `{RT : Runtime} (env : Route.Env)
    (req : Route.NextRequest) (w w' : World) (d : Route.Detection) :
  Route.POST env req w = (Route.JsonResponse d, w') ->
  exists s : Z,
    Route.score d = Js.of_Z s /\
    Route.label d = Route.label_of (Route.score d) /\
    (Route.label d = "Human-Captured"%string <-> (s < 45)%Z) /\
    (Route.label d = "Uncertain"%string <-> (45 <= s <= 55)%Z) /\
    (Route.label d = "AI-Generated"%string <-> (s > 55)%Z).
Proof.
  intro Hpost.
  destruct (POST_json env req w w' d Hpost)
    as (form & file & bytes & _ & _ & _ & _ & _ & Hd).
  pose proof (detect_normal env file bytes w) as Hn.
  rewrite Hd in Hn. cbn [fst] in Hn.
  destruct Hn as (s & Hs & _ & Hl & _).
  exists s. split; [exact Hs|]. split.
  - rewrite Hs, label_of_int. exact Hl.
  - rewrite Hl. apply spec_label_cases.
Qed.

Lemma label_thresholds_witness :
  exists s : Z,
    Route.score (Route.fallback [x89; x50; x4e]) = Js.of_Z s /\
    Route.label (Route.fallback [x89; x50; x4e]) =
      Route.label_of (Route.score (Route.fallback [x89; x50; x4e])) /\
    (Route.label (Route.fallback [x89; x50; x4e]) = "Human-Captured"%string
     <-> (s < 45)%Z) /\
    (Route.label (Route.fallback [x89; x50; x4e]) = "Uncertain"%string
     <-> (45 <= s <= 55)%Z) /\
    (Route.label (Route.fallback [x89; x50; x4e]) = "AI-Generated"%string
     <-> (s > 55)%Z).
Proof.
  apply (label_thresholds (RT := Demo.runtime) Demo.env_none
           (Detector.request_of Demo.png) 0%nat 0%nat).
  reflexivity.
Defined.

(** C10.  Every JSON response has a score that is an integer in 0..100, a
    label among the three, and a reason of at most 200 characters; every
    reason of the fallback table is shorter than 200 characters. *)
Theorem response_shape `{RT : Runtime} (env : Route.Env)
    (req : Route.NextRequest) (w w' : World) (d : Route.Detection) :
  Route.POST env req w = (Route.JsonResponse d, w') ->
  Spec.well_shaped d /\
  Forall (fun r => (String.length r < 200)%nat) Route.reasons.
Proof.
  intro Hpost. split; [|exact reasons_short].
  destruct (POST_json env req w w' d Hpost)
    as (form & file & bytes & _ & _ & _ & _ & _ & Hd).
  pose proof (detect_normal env file bytes w) as Hn.
  rewrite Hd in Hn. now apply normal_well_shaped.
Qed.

Lemma response_shape_witness :
  Spec.well_shaped
    (Route.detection_of_data (RT := Demo.runtime)
       {| Route.data_score := Js.of_Z 72; Route.data_reason := "Smooth textures" |}
       "openrouter:google/gemini-1.5-pro").
Proof.
  apply (response_shape (RT := Demo.runtime) Demo.env_both
           (Detector.request_of Demo.png) 0%nat 4%nat).
  reflexivity.
Defined.

(** *** The provider chain, as specified *)






(** grok-4 is called once OpenRouter's three default models have failed, in
    the world their six calls left, and its object is what is returned. *)
Example grok4_after_openrouter :
  let RT : Runtime :=
    {| World := nat;
       JSON_parse := fun _ => None;
       StringToNumber := fun _ => Js.NaN;
       NumberToString := fun _ => "0"%string;
       ObjectToString := fun _ => "o"%string;
       generateObject := fun m _ _ w =>
         match m with
         | OpenRouterModel _ => (None, S w)
         | XaiModel _ =>
             (Some (Js.JObj [ ("score"%string, Js.JNum (Js.of_Z (Z.of_nat w)));
                              ("reason"%string, Js.JStr "From grok") ]), S w)
         end;
       generateText := fun _ _ _ w => (None, S w);
       createObjectURL := fun _ _ => "blob:"%string |} in
  Route.detect (RT := RT) Demo.env_both Demo.png [x89; x50; x4e] 0%nat =
  ({| Route.score := Js.of_Z 6;
      Route.label := "Human-Captured";
      Route.reason := "From grok";
      Route.provider := "grok-4" |}, 7%nat).
Proof. reflexivity. Qed.

Example candidates_override :
  Route.candidates
    {| Route.OPENROUTER_API_KEY := Some "k"%string;
       Route.OPENROUTER_MODEL := Some " openai/gpt-4o , ,x-ai/grok-2,"%string;
       Route.XAI_API_KEY := None |} =
  [ "openai/gpt-4o"; "x-ai/grok-2" ]%string.
Proof. reflexivity. Qed.

Example plan_both :
  Spec.plan Demo.env_both =
  [ Spec.OpenRouter "openai/gpt-4o"; Spec.OpenRouter "google/gemini-1.5-pro";
    Spec.OpenRouter "anthropic/claude-3.5-sonnet"; Spec.Grok4 ]%string.
Proof. reflexivity. Qed.

(** A key with an override that names no model: no attempt is made. *)
Example plan_empty_override :
  Spec.plan
    {| Route.OPENROUTER_API_KEY := Some "k"%string;
       Route.OPENROUTER_MODEL := Some " , "%string;
       Route.XAI_API_KEY := None |} = [].
Proof. reflexivity. Qed.

Example detect_demo :
  Route.detect (RT := Demo.runtime) Demo.env_both Demo.png [x89; x50; x4e] 0%nat =
  ({| Route.score := Js.of_Z 72;
      Route.label := "AI-Generated";
      Route.reason := "Smooth textures";
      Route.provider := "openrouter:google/gemini-1.5-pro" |}, 4%nat).
Proof. reflexivity. Qed.

(** *** Request validation *)

Lemma form_get_in (name : string) (form : Route.FormData) (e : Route.entry) :
  Route.form_get name form = Some e -> In (name, e) form.
Proof.
  induction form as [|[k e'] rest IH]; cbn; [discriminate|].
  destruct (String.eqb_spec k name) as [->|Hne].
  - intros [= ->]. now left.
  - intro H. right. auto.
Qed.

(** C8.  Before any provider is called or the fallback computed (the
    world is left as it was): a request whose form data cannot be read is
    answered 400; so is a form without [image] and [file] field, with
    [Missing image]; so is a form that holds no file at all; a file whose
    type does not start with [image/] is answered 400 [Invalid file type];
    a file of more than 6 * 1024 * 1024 bytes is answered 413; an error
    thrown anywhere else is answered 500. *)
Theorem POST_validation `{RT : Runtime} (env : Route.Env) (w : World) :
  (forall req,
      Route.formData req = None ->
      Route.POST env req w =
      (Route.TextResponse "Expected multipart/form-data" 400, w)) /\
  (forall req form,
      Route.formData req = Some form ->
      Route.form_get "image" form = None ->
      Route.form_get "file" form = None ->
      Route.POST env req w = (Route.TextResponse "Missing image" 400, w)) /\
  (forall req form,
      Route.formData req = Some form ->
      (forall k e, In (k, e) form -> exists s, e = Route.EntryString s) ->
      Route.POST env req w = (Route.TextResponse "Missing image" 400, w)) /\
  (forall req form file,
      Route.formData req = Some form ->
      Route.form_file form = Some (Route.EntryFile file) ->
      Js.startsWith (Route.file_type file) "image/" = false ->
      Route.POST env req w = (Route.TextResponse "Invalid file type" 400, w)) /\
  (forall req form file,
      Route.formData req = Some form ->
      Route.form_file form = Some (Route.EntryFile file) ->
      Js.startsWith (Route.file_type file) "image/" = true ->
      (Route.file_size file > 6 * 1024 * 1024)%Z ->
      Route.POST env req w =
      (Route.TextResponse "Image too large (max 6MB)" 413, w)) /\
  (forall req w',
      Route.POST_try env req w = (Route.Throw, w') ->
      Route.POST env req w = (Route.TextResponse "Server error" 500, w')).
Proof.
  unfold Route.POST, Route.POST_try.
  split; [|split; [|split; [|split; [|split]]]].
  - intros req ->. reflexivity.
  - intros req form -> Himage Hfile.
    unfold Route.form_file. now rewrite Himage, Hfile.
  - intros req form -> Hstrings.
    destruct (Route.form_file form) as [[file|s]|] eqn:Hsel; try reflexivity.
    unfold Route.form_file in Hsel.
    destruct (Route.form_get "image" form) as [e|] eqn:Himage.
    + injection Hsel as ->. apply form_get_in in Himage.
      destruct (Hstrings _ _ Himage) as [s Hs]. discriminate.
    + apply form_get_in in Hsel.
      destruct (Hstrings _ _ Hsel) as [s Hs]. discriminate.
  - intros req form file -> -> ->. reflexivity.
  - intros req form file -> -> -> Hsize. cbn [negb].
    destruct (Z.gtb_spec (Route.file_size file) Route.maxBytes) as [_|Hle];
      [reflexivity|].
    unfold Route.maxBytes in Hle. lia.
  - intros req w' ->. reflexivity.
Qed.

Lemma POST_validation_witness :
  Route.POST (RT := Demo.runtime) Demo.env_both
    {| Route.formData := None |} 0%nat =
    (Route.TextResponse "Expected multipart/form-data" 400, 0%nat) /\
  Route.POST (RT := Demo.runtime) Demo.env_both
    {| Route.formData := Some [("upload"%string, Route.EntryFile Demo.png)] |}
    0%nat =
    (Route.TextResponse "Missing image" 400, 0%nat) /\
  Route.POST (RT := Demo.runtime) Demo.env_both
    {| Route.formData := Some [("image"%string, Route.EntryString "cat.png")] |}
    0%nat =
    (Route.TextResponse "Missing image" 400, 0%nat) /\
  Route.POST (RT := Demo.runtime) Demo.env_both
    (Detector.request_of
       {| Route.file_type := "text/plain"; Route.file_size := 3;
          Route.file_arrayBuffer := Some [x89; x50; x4e] |}) 0%nat =
    (Route.TextResponse "Invalid file type" 400, 0%nat) /\
  Route.POST (RT := Demo.runtime) Demo.env_both
    (Detector.request_of
       {| Route.file_type := "image/png"; Route.file_size := 6291457;
          Route.file_arrayBuffer := Some [x89; x50; x4e] |}) 0%nat =
    (Route.TextResponse "Image too large (max 6MB)" 413, 0%nat) /\
  Route.POST (RT := Demo.runtime) Demo.env_both
    (Detector.request_of
       {| Route.file_type := "image/png"; Route.file_size := 3;
          Route.file_arrayBuffer := None |}) 0%nat =
    (Route.TextResponse "Server error" 500, 0%nat).
Proof.
  destruct (POST_validation (RT := Demo.runtime) Demo.env_both 0%nat)
    as (H1 & H2 & H3 & H4 & H5 & H6).
  split; [|split; [|split; [|split; [|split]]]].
  - apply H1. reflexivity.
  - apply (H2 _ [("upload"%string, Route.EntryFile Demo.png)]); reflexivity.
  - apply (H3 _ [("image"%string, Route.EntryString "cat.png")]);
      [reflexivity|].
    intros k e [[= _ <-]|[]]. now exists "cat.png"%string.
  - eapply H4; reflexivity.
  - eapply H5; reflexivity.
  - apply H6. reflexivity.
Defined.

(** *** The upload widget *)

(** C7.  [onFiles] on a non-empty list looks at its first file [f].  When
    the type of [f] starts with [image/] and its size is at most
    5 * 1024 * 1024, it stores [f] and a preview URL and clears the error and
    the result; otherwise it sets an error message and leaves the stored
    file and the preview URL as they were. *)
Theorem onFiles_intake `{RT : Runtime} (f : Route.File)
    (others : list Route.File) (st : Detector.State) :
  let st' := Detector.onFiles (Some (f :: others)) st in
  Detector.MAX_SIZE_BYTES = (5 * 1024 * 1024)%Z /\
  (Js.startsWith (Route.file_type f) "image/" = true ->
   (Route.file_size f <= 5 * 1024 * 1024)%Z ->
   Detector.file st' = Some f /\
   Detector.previewUrl st' =
     Some (createObjectURL (Route.file_type f) (Route.file_size f)) /\
   Detector.error st' = None /\
   Detector.result st' = None) /\
  (Js.startsWith (Route.file_type f) "image/" = false \/
   (Route.file_size f > 5 * 1024 * 1024)%Z ->
   (exists message, Detector.error st' = Some message) /\
   Detector.file st' = Detector.file st /\
   Detector.previewUrl st' = Detector.previewUrl st).
Proof.
  cbv zeta. unfold Detector.onFiles. cbv zeta.
  split; [reflexivity|]. split.
  - intros -> Hsize. cbn [negb].
    destruct (Z.gtb_spec (Route.file_size f) Detector.MAX_SIZE_BYTES) as [Hgt|_].
    + unfold Detector.MAX_SIZE_BYTES in Hgt. lia.
    + repeat split.
  - intros Hrej.
    destruct (Js.startsWith (Route.file_type f) "image/"); cbn [negb].
    + destruct Hrej as [Hrej|Hrej]; [discriminate|].
      destruct (Z.gtb_spec (Route.file_size f) Detector.MAX_SIZE_BYTES) as [_|Hle].
      * split; [eexists; reflexivity|]. split; reflexivity.
      * unfold Detector.MAX_SIZE_BYTES in Hle. lia.
    + split; [eexists; reflexivity|]. split; reflexivity.
Qed.

Lemma onFiles_intake_witness :
  (Detector.file (Detector.onFiles (RT := Demo.runtime) (Some [Demo.png])
                    Detector.initial) = Some Demo.png /\
   Detector.previewUrl (Detector.onFiles (RT := Demo.runtime) (Some [Demo.png])
                          Detector.initial) = Some "blob:preview"%string /\
   Detector.error (Detector.onFiles (RT := Demo.runtime) (Some [Demo.png])
                     Detector.initial) = None /\
   Detector.result (Detector.onFiles (RT := Demo.runtime) (Some [Demo.png])
                      Detector.initial) = None) /\
  ((exists message,
       Detector.error
         (Detector.onFiles (RT := Demo.runtime)
            (Some [ {| Route.file_type := "image/png";
                       Route.file_size := 5242881;
                       Route.file_arrayBuffer := None |} ])
            (Detector.onFiles (RT := Demo.runtime) (Some [Demo.png])
               Detector.initial)) = Some message) /\
   Detector.file
     (Detector.onFiles (RT := Demo.runtime)
        (Some [ {| Route.file_type := "image/png";
                   Route.file_size := 5242881;
                   Route.file_arrayBuffer := None |} ])
        (Detector.onFiles (RT := Demo.runtime) (Some [Demo.png])
           Detector.initial)) = Some Demo.png /\
   Detector.previewUrl
     (Detector.onFiles (RT := Demo.runtime)
        (Some [ {| Route.file_type := "image/png";
                   Route.file_size := 5242881;
                   Route.file_arrayBuffer := None |} ])
        (Detector.onFiles (RT := Demo.runtime) (Some [Demo.png])
           Detector.initial)) = Some "blob:preview"%string).
Proof.
  split.
  - apply (onFiles_intake (RT := Demo.runtime) Demo.png [] Detector.initial);
      [reflexivity | cbn; lia].
  - apply (onFiles_intake (RT := Demo.runtime)
             {| Route.file_type := "image/png"; Route.file_size := 5242881;
                Route.file_arrayBuffer := None |} []
             (Detector.onFiles (RT := Demo.runtime) (Some [Demo.png])
                Detector.initial)).
    right. cbn. lia.
Defined.

Lemma onFiles_nothing `{RT : Runtime} (st : Detector.State) :
  Detector.onFiles None st = st /\ Detector.onFiles (Some []) st = st.
Proof. split; reflexivity. Qed.

(** [analyze] does not touch the stored file. *)
Lemma analyze_file `{RT : Runtime} (env : Route.Env) (st : Detector.State)
    (w : World) :
  Detector.file (fst (Detector.analyze env st w)) = Detector.file st.
Proof.
  unfold Detector.analyze.
  destruct (Detector.file st) as [f|] eqn:Hf; [|exact Hf].
  destruct (Route.POST env (Detector.request_of f) _) as [[msg code|data] w'];
    exact Hf.
Qed.

(** The file the widget holds has passed its two checks. *)
Lemma reachable_file_checked `{RT : Runtime} (env : Route.Env)
    (st : Detector.State) :
  Detector.reachable env st ->
  forall f : Route.File,
    Detector.file st = Some f ->
    Js.startsWith (Route.file_type f) "image/" = true /\
    (Route.file_size f <= Detector.MAX_SIZE_BYTES)%Z.
Proof.
  induction 1 as [|st files Hreach IH|st w Hreach IH]; intros f Hf.
  - discriminate.
  - destruct files as [[|g others]|]; try now apply IH.
    unfold Detector.onFiles in Hf. cbv zeta in Hf.
    destruct (Js.startsWith (Route.file_type g) "image/") eqn:Htype;
      cbn [negb] in Hf; [|now apply IH].
    destruct (Z.gtb_spec (Route.file_size g) Detector.MAX_SIZE_BYTES)
      as [Hgt|Hle]; [now apply IH|].
    cbn in Hf. injection Hf as <-. now split.
  - rewrite analyze_file in Hf. now apply IH.
Qed.

(** C9.  The limit of the widget, 5 * 1024 * 1024 bytes, is below the
    limit of the endpoint, 6 * 1024 * 1024 bytes: the file a reachable state
    of the widget holds passes the size guard of the endpoint, and the
    request [analyze] sends for it is never answered 413. *)
Theorem client_limit_below_server_limit `{RT : Runtime} (env : Route.Env)
    (st : Detector.State) (f : Route.File) :
  Detector.reachable env st ->
  Detector.file st = Some f ->
  (Detector.MAX_SIZE_BYTES < Route.maxBytes)%Z /\
  (Route.file_size f >? Route.maxBytes)%Z = false /\
  forall (env' : Route.Env) (w : World),
    Route.status_of (fst (Route.POST env' (Detector.request_of f) w)) <> 413%Z.
Proof.
  intros Hreach Hf.
  destruct (reachable_file_checked env st Hreach f Hf) as [Htype Hsize].
  assert (Hguard : (Route.file_size f >? Route.maxBytes)%Z = false).
  { destruct (Z.gtb_spec (Route.file_size f) Route.maxBytes) as [Hgt|_];
      [|reflexivity].
    unfold Detector.MAX_SIZE_BYTES in Hsize. unfold Route.maxBytes in Hgt. lia. }
  split; [reflexivity|]. split; [exact Hguard|].
  intros env' w.
  unfold Route.POST, Route.POST_try, Detector.request_of.
  cbn [Route.formData Route.form_file Route.form_get String.eqb Ascii.eqb
       Bool.eqb].
  rewrite Htype, Hguard. cbn [negb].
  destruct (Route.file_arrayBuffer f) as [bytes|].
  - destruct (Route.detect env' f bytes w). cbn. discriminate.
  - cbn. discriminate.
Qed.

Lemma client_limit_below_server_limit_witness :
  Detector.reachable (RT := Demo.runtime) Demo.env_both
    (Detector.onFiles (RT := Demo.runtime) (Some [Demo.png]) Detector.initial) /\
  Route.status_of
    (fst (Route.POST (RT := Demo.runtime) Demo.env_both
            (Detector.request_of Demo.png) 0%nat)) <> 413%Z.
Proof.
  assert (Hreach :
    Detector.reachable (RT := Demo.runtime) Demo.env_both
      (Detector.onFiles (RT := Demo.runtime) (Some [Demo.png])
         Detector.initial)).
  { apply Detector.reach_onFiles, Detector.reach_initial. }
  split; [exact Hreach|].
  apply (client_limit_below_server_limit (RT := Demo.runtime) Demo.env_both
           _ Demo.png Hreach).
  reflexivity.
Defined.

(** *** JSON repair *)

Section Repair.

Context `{RT : Runtime}.

(** When the text holds no [```json] block with content, or the content of
    that block parses, the code returns what the specification describes:
    the first candidate that parses, [null] when none does. *)
Lemma extractJsonObject_agrees (text : string) :
  (match Js.match_between true Route.fence_json Route.fence text with
   | Some (String c cs) => JSON_parse (Js.trim (String c cs)) <> None
   | _ => True
   end) ->
  Route.extractJsonObject text = Spec.extractJsonObject text.
Proof.
  unfold Route.extractJsonObject, Route.extractJsonObject_try,
    Spec.extractJsonObject, Spec.repair_candidates.
  destruct text as [|t ts]; [reflexivity|]. cbn [Js.truthy_string negb].
  set (text := String t ts).
  destruct (Js.match_between true Route.fence_json Route.fence text)
    as [[|c1 cs1]|].
  - intros _. cbn [app].
    destruct (Js.match_between false Route.fence Route.fence text)
      as [[|c2 cs2]|]; cbn [app Spec.first_parsed].
    + destruct (Route.brace_block text) as [block|]; cbn [Spec.first_parsed];
        [destruct (JSON_parse _)|]; reflexivity.
    + destruct (JSON_parse (Js.trim (String c2 cs2))); [reflexivity|].
      destruct (Route.brace_block text) as [block|]; cbn [Spec.first_parsed];
        [destruct (JSON_parse _)|]; reflexivity.
    + destruct (Route.brace_block text) as [block|]; cbn [Spec.first_parsed];
        [destruct (JSON_parse _)|]; reflexivity.
  - intro Hparses. cbn [app Spec.first_parsed].
    destruct (JSON_parse (Js.trim (String c1 cs1))); [reflexivity|].
    now contradiction Hparses.
  - intros _. cbn [app].
    destruct (Js.match_between false Route.fence Route.fence text)
      as [[|c2 cs2]|]; cbn [app Spec.first_parsed].
    + destruct (Route.brace_block text) as [block|]; cbn [Spec.first_parsed];
        [destruct (JSON_parse _)|]; reflexivity.
    + destruct (JSON_parse (Js.trim (String c2 cs2))); [reflexivity|].
      destruct (Route.brace_block text) as [block|]; cbn [Spec.first_parsed];
        [destruct (JSON_parse _)|]; reflexivity.
    + destruct (Route.brace_block text) as [block|]; cbn [Spec.first_parsed];
        [destruct (JSON_parse _)|]; reflexivity.
Qed.

(** A [```json] block whose content does not parse ends the repair: the
    code returns [null] without trying the other candidates. *)
Lemma extractJsonObject_json_block_fails (text c : string) :
  text <> EmptyString ->
  Js.match_between true Route.fence_json Route.fence text = Some c ->
  c <> EmptyString ->
  JSON_parse (Js.trim c) = None ->
  Route.extractJsonObject text = Js.JNull.
Proof.
  intros Htext Hmatch Hc Hparse.
  unfold Route.extractJsonObject, Route.extractJsonObject_try.
  destruct text as [|t ts]; [contradiction|]. cbn [Js.truthy_string negb].
  rewrite Hmatch. destruct c as [|c1 cs1]; [contradiction|].
  now rewrite Hparse.
Qed.

End Repair.

(** C6, at the answer [Demo.fenced_answer_comma]: a [```json] block that
    holds an object with a comma before its closing brace.  The candidates
    are the content of the block, the content of the block seen as any
    fenced block, and the braces with the comma removed; the last one
    parses, and the specification's repair returns its value; the code
    returns [null], because the failure of the first candidate is caught by
    the outer [catch]. *)
Theorem extractJsonObject_fenced_comma `{RT : Runtime} (v : Js.value) :
  JSON_parse Demo.object_text_comma = None ->
  JSON_parse ("json" ++ Demo.lf ++ Demo.object_text_comma)%string = None ->
  JSON_parse Demo.object_text = Some v ->
  Spec.repair_candidates Demo.fenced_answer_comma =
    [ Demo.object_text_comma;
      ("json" ++ Demo.lf ++ Demo.object_text_comma)%string;
      Demo.object_text ] /\
  Spec.extractJsonObject Demo.fenced_answer_comma = v /\
  Route.extractJsonObject Demo.fenced_answer_comma = Js.JNull /\
  (v <> Js.JNull ->
   Route.extractJsonObject Demo.fenced_answer_comma <>
   Spec.extractJsonObject Demo.fenced_answer_comma).
Proof.
  intros Hcomma Hany Hobject.
  assert (Hcode : Route.extractJsonObject Demo.fenced_answer_comma = Js.JNull).
  { apply extractJsonObject_json_block_fails
      with (c := (Demo.lf ++ Demo.object_text_comma ++ Demo.lf)%string).
    - discriminate.
    - reflexivity.
    - discriminate.
    - exact Hcomma. }
  assert (Hcands : Spec.repair_candidates Demo.fenced_answer_comma =
    [ Demo.object_text_comma;
      ("json" ++ Demo.lf ++ Demo.object_text_comma)%string;
      Demo.object_text ]) by reflexivity.
  assert (Hspec : Spec.extractJsonObject Demo.fenced_answer_comma = v).
  { unfold Spec.extractJsonObject.
    change (Spec.first_parsed (Spec.repair_candidates Demo.fenced_answer_comma) = v).
    rewrite Hcands. cbn [Spec.first_parsed].
    now rewrite Hcomma, Hany, Hobject. }
  split; [exact Hcands|]. split; [exact Hspec|]. split; [exact Hcode|].
  intro Hv. rewrite Hcode, Hspec. congruence.
Qed.

Lemma extractJsonObject_fenced_comma_witness :
  Spec.extractJsonObject (RT := Demo.runtime) Demo.fenced_answer_comma =
    Demo.object_value /\
  Route.extractJsonObject (RT := Demo.runtime) Demo.fenced_answer_comma =
    Js.JNull /\
  Route.extractJsonObject (RT := Demo.runtime) Demo.fenced_answer_comma <>
  Spec.extractJsonObject (RT := Demo.runtime) Demo.fenced_answer_comma.
Proof.
  destruct (extractJsonObject_fenced_comma (RT := Demo.runtime)
              Demo.object_value)
    as (_ & Hspec & Hcode & Hneq); try reflexivity.
  split; [exact Hspec|]. split; [exact Hcode|].
  apply Hneq. discriminate.
Defined.

Example extractJsonObject_fenced :
  Route.extractJsonObject (RT := Demo.runtime) Demo.fenced_answer =
  Demo.object_value.
Proof. reflexivity. Qed.

Example extractJsonObject_bare_comma :
  Route.extractJsonObject (RT := Demo.runtime)
    ("Here it is: " ++ Demo.object_text_comma)%string =
  Demo.object_value.
Proof. reflexivity. Qed.

(* ================================================================== *)
(** ** The endpoint: outcomes, fields, sampling *)
(* ================================================================== *)

(** The endpoint answers 200, 400, 413 or 500, and 200 only with JSON.  It
    answers with JSON exactly when the request carries a file of an image
    type, within the size limit, whose bytes can be read: no failure of a
    provider turns a valid upload into an error. *)
Theorem POST_outcomes `{RT : Runtime} (env : Route.Env)
    (req : Route.NextRequest) (w : World) :
  let r := fst (Route.POST env req w) in
  (Route.status_of r = 200 \/ Route.status_of r = 400 \/
   Route.status_of r = 413 \/ Route.status_of r = 500)%Z /\
  (Route.status_of r = 200%Z <-> exists d, r = Route.JsonResponse d) /\
  ((exists d, r = Route.JsonResponse d) <->
   exists form file bytes,
     Route.formData req = Some form /\
     Route.form_file form = Some (Route.EntryFile file) /\
     Js.startsWith (Route.file_type file) "image/" = true /\
     (Route.file_size file <= Route.maxBytes)%Z /\
     Route.file_arrayBuffer file = Some bytes).
Proof.
  cbv zeta.
  assert (Hiff : (exists d, fst (Route.POST env req w) = Route.JsonResponse d) <->
    exists form file bytes,
      Route.formData req = Some form /\
      Route.form_file form = Some (Route.EntryFile file) /\
      Js.startsWith (Route.file_type file) "image/" = true /\
      (Route.file_size file <= Route.maxBytes)%Z /\
      Route.file_arrayBuffer file = Some bytes).
  { split.
    - intros [d Hd].
      destruct (Route.POST env req w) as [r w'] eqn:Hpost. cbn in Hd. subst r.
      destruct (POST_json env req w w' d Hpost)
        as (form & file & bytes & H1 & H2 & H3 & H4 & H5 & _).
      now exists form, file, bytes.
    - intros (form & file & bytes & H1 & H2 & H3 & H4 & H5).
      unfold Route.POST, Route.POST_try. rewrite H1, H2, H3, H5. cbn [negb].
      destruct (Z.gtb_spec (Route.file_size file) Route.maxBytes); [lia|].
      destruct (Route.detect env file bytes w) as [d w']. now exists d. }
  split; [|split; [|exact Hiff]].
  - unfold Route.POST, Route.POST_try.
    destruct (Route.formData req) as [form|]; [|cbn; auto].
    destruct (Route.form_file form) as [[file|s]|]; try (cbn; auto).
    destruct (negb _); [cbn; auto|].
    destruct (_ >? _)%Z; [cbn; auto|].
    destruct (Route.file_arrayBuffer file) as [bytes|]; [|cbn; auto].
    destruct (Route.detect env file bytes w). cbn. auto.
  - split; [|intros [d ->]; reflexivity].
    unfold Route.POST, Route.POST_try.
    destruct (Route.formData req) as [form|]; [|discriminate].
    destruct (Route.form_file form) as [[file|s]|]; try discriminate.
    destruct (negb _); [discriminate|].
    destruct (_ >? _)%Z; [discriminate|].
    destruct (Route.file_arrayBuffer file) as [bytes|]; [|discriminate].
    destruct (Route.detect env file bytes w) as [d w']. intros _. now exists d.
Qed.

Lemma POST_outcomes_witness :
  Route.status_of
    (fst (Route.POST (RT := Demo.runtime) Demo.env_none
            (Detector.request_of Demo.png) 0%nat)) = 200%Z /\
  exists d,
    fst (Route.POST (RT := Demo.runtime) Demo.env_none
           (Detector.request_of Demo.png) 0%nat) = Route.JsonResponse d.
Proof.
  destruct (POST_outcomes (RT := Demo.runtime) Demo.env_none
              (Detector.request_of Demo.png) 0%nat) as (_ & H200 & Hjson).
  assert (Hd : exists d,
    fst (Route.POST (RT := Demo.runtime) Demo.env_none
           (Detector.request_of Demo.png) 0%nat) = Route.JsonResponse d).
  { apply Hjson.
    exists [("image"%string, Route.EntryFile Demo.png)], Demo.png,
      [x89; x50; x4e].
    repeat split; try reflexivity. cbn. unfold Route.maxBytes. lia. }
  split; [apply H200; exact Hd | exact Hd].
Defined.

(** The field [file] stands in for [image] only when the form has no
    [image] field: an [image] field that is not a file is answered
    400 [Missing image] whatever the [file] field holds, and a form without
    [image] is handled as if its [file] entry were the [image] entry. *)
Theorem image_field_precedence `{RT : Runtime} (env : Route.Env)
    (form : Route.FormData) (w : World) :
  (forall s,
      Route.form_get "image" form = Some (Route.EntryString s) ->
      Route.POST env {| Route.formData := Some form |} w =
      (Route.TextResponse "Missing image" 400, w)) /\
  (forall e,
      Route.form_get "image" form = None ->
      Route.form_get "file" form = Some e ->
      Route.POST env {| Route.formData := Some form |} w =
      Route.POST env {| Route.formData := Some [("image"%string, e)] |} w) /\
  (forall e,
      Route.form_get "image" form = Some e ->
      Route.POST env {| Route.formData := Some form |} w =
      Route.POST env {| Route.formData := Some [("image"%string, e)] |} w).
Proof.
  unfold Route.POST, Route.POST_try, Route.form_file. cbn [Route.formData].
  split; [|split].
  - intros s ->. reflexivity.
  - intros e -> ->. reflexivity.
  - intros e ->. reflexivity.
Qed.

Lemma image_field_precedence_witness :
  Route.POST (RT := Demo.runtime) Demo.env_none
    {| Route.formData :=
         Some [ ("file"%string, Route.EntryFile Demo.png);
                ("image"%string, Route.EntryString "cat.png") ] |} 0%nat =
  (Route.TextResponse "Missing image" 400, 0%nat).
Proof.
  apply (proj1 (image_field_precedence (RT := Demo.runtime) Demo.env_none
                  [ ("file"%string, Route.EntryFile Demo.png);
                    ("image"%string, Route.EntryString "cat.png") ] 0%nat)
           "cat.png"%string).
  reflexivity.
Defined.

(** *** The rolling hash: range, sampling *)

Lemma byte_at_range (view : list byte) (i : nat) :
  (0 <= Route.byte_at view i <= 255)%Z.
Proof.
  unfold Route.byte_at.
  pose proof (Byte.to_N_bounded (nth i view x00)). lia.
Qed.

Lemma to_uint32_range (x : Z) : (0 <= Js.to_uint32 x < 2 ^ 32)%Z.
Proof. unfold Js.to_uint32. apply Z.mod_pos_bound. lia. Qed.

Lemma hash_loop_range (view : list byte) (step fuel : nat) :
  forall (i : nat) (h h' : Z),
    (0 <= h < 2 ^ 32)%Z ->
    Route.hash_loop fuel view step i h = Some h' ->
    (0 <= h' < 2 ^ 32)%Z.
Proof.
  induction fuel as [|fuel IH]; intros i h h' Hh; cbn [Route.hash_loop];
    [discriminate|].
  destruct (i <? List.length view)%nat.
  - apply IH. apply to_uint32_range.
  - now intros [= <-].
Qed.

(** The hash stays an unsigned 32-bit integer, and what the loop computes
    before [>>> 0] is a non-negative integer below 2^53: the arithmetic of
    the handler is exact on doubles. *)
Theorem fallback_hash_exact (view : list byte) :
  (0 <= Route.fallback_hash view < 2 ^ 32)%Z /\
  (forall (i : nat) (h : Z),
      (0 <= h < 2 ^ 32)%Z ->
      (0 <= h * 31 + Route.byte_at view i < 2 ^ 53)%Z /\
      (0 <= Js.to_uint32 (h * 31 + Route.byte_at view i) < 2 ^ 32)%Z) /\
  (forall (fuel step i : nat) (h h' : Z),
      (0 <= h < 2 ^ 32)%Z ->
      Route.hash_loop fuel view step i h = Some h' ->
      (0 <= h' < 2 ^ 32)%Z).
Proof.
  split; [|split].
  - unfold Route.fallback_hash.
    destruct (Route.hash_loop _ _ _ _ _) as [h|] eqn:Hloop; [|lia].
    eapply hash_loop_range; [|exact Hloop]. lia.
  - intros i h Hh. split; [|apply to_uint32_range].
    pose proof (byte_at_range view i). lia.
  - intros fuel step i h h'. apply hash_loop_range.
Qed.

Lemma fallback_hash_exact_witness :
  (0 <= 134215 < 2 ^ 32)%Z /\
  Route.hash_loop 4 [x89; x50; x4e] 1 0 0 = Some 134215%Z /\
  (0 <= 134215 * 31 + Route.byte_at [x89; x50; x4e] 0 < 2 ^ 53)%Z.
Proof.
  assert (Hrun : Route.hash_loop 4 [x89; x50; x4e] 1 0 0 = Some 134215%Z)
    by reflexivity.
  destruct (fallback_hash_exact [x89; x50; x4e]) as (_ & Hstep & Hloop).
  assert (Hr : (0 <= 134215 < 2 ^ 32)%Z).
  { apply (Hloop 4%nat 1%nat 0%nat 0%Z 134215%Z); [lia | exact Hrun]. }
  split; [exact Hr|]. split; [exact Hrun|].
  apply (Hstep 0%nat 134215%Z Hr).
Defined.

Lemma fold_left_ext_in {A B : Type} (f g : A -> B -> A) (l : list B) :
  (forall b, In b l -> forall a, f a b = g a b) ->
  forall a, fold_left f l a = fold_left g l a.
Proof.
  induction l as [|b l IH]; intros Hext a; [reflexivity|].
  cbn. rewrite (Hext b) by now left.
  apply IH. intros b' Hb'. apply Hext. now right.
Qed.

(** The fallback only reads the sampled bytes: two arrays of one length
    that agree at the indices the loop visits get the same detection. *)
Theorem fallback_reads_samples_only (b1 b2 : list byte) :
  List.length b1 = List.length b2 ->
  forallb (fun i => Byte.eqb (nth i b1 x00) (nth i b2 x00))
    (Spec.sampled_indices (List.length b1) (Route.step_of b1)) = true ->
  Route.fallback b1 = Route.fallback b2.
Proof.
  intros Hlen Hsame.
  assert (Hhash : Route.fallback_hash b1 = Route.fallback_hash b2).
  { rewrite !fallback_hash_spec. unfold Spec.rolling_hash.
    rewrite <- Hlen.
    apply fold_left_ext_in. intros i Hi h.
    rewrite forallb_forall in Hsame.
    replace (Spec.step (List.length b1)) with (Route.step_of b1) in Hi
      by apply step_of_spec.
    specialize (Hsame i Hi). apply Byte.byte_dec_bl in Hsame.
    now rewrite Hsame. }
  unfold Route.fallback. now rewrite Hhash.
Qed.

Lemma fallback_reads_samples_only_witness :
  Route.fallback (repeat x00 2048) =
  Route.fallback (x00 :: xff :: repeat x00 2046).
Proof.
  apply fallback_reads_samples_only; vm_compute; reflexivity.
Defined.

Lemma filter_block (step k : nat) :
  (0 < step)%nat ->
  filter (fun i => (i mod step =? 0)%nat) (seq (k * step) step) = [(k * step)%nat].
Proof.
  intro Hstep. destruct step as [|s]; [lia|].
  cbn [seq filter]. rewrite Nat.Div0.mod_mul. cbn [Nat.eqb].
  f_equal. apply (filter_gap (S s) Hstep (k * S s)); [|lia|lia].
  apply Nat.Div0.mod_mul.
Qed.

Lemma count_blocks (step k : nat) :
  (0 < step)%nat ->
  List.length (Spec.sampled_indices (k * step) step) = k.
Proof.
  intro Hstep. unfold Spec.sampled_indices.
  induction k as [|k IH]; [reflexivity|].
  replace (S k * step)%nat with (k * step + step)%nat by lia.
  rewrite seq_app, filter_app, length_app, IH. cbn [Nat.add].
  rewrite filter_block by assumption. cbn. lia.
Qed.

(** The number of sampled indices: one per started block of [step]. *)
Lemma sampled_count (n step : nat) :
  (0 < step)%nat ->
  List.length (Spec.sampled_indices n step) =
  (n / step + (if (n mod step =? 0)%nat then 0 else 1))%nat.
Proof.
  intro Hstep.
  pose proof (Nat.div_mod_eq n step) as Hdm.
  pose proof (Nat.mod_upper_bound n step ltac:(lia)) as Hr.
  pose proof (count_blocks step (n / step) Hstep) as Hk.
  unfold Spec.sampled_indices in *.
  replace n with ((n / step) * step + n mod step)%nat at 1 by lia.
  rewrite seq_app, filter_app, length_app, Hk. cbn [Nat.add]. f_equal.
  destruct (n mod step)%nat as [|r] eqn:Hmod; [reflexivity|].
  cbn [seq filter Nat.eqb]. rewrite Nat.Div0.mod_mul. cbn [Nat.eqb length].
  f_equal.
  rewrite (filter_gap step Hstep (n / step * step)); [reflexivity| |lia|lia].
  apply Nat.Div0.mod_mul.
Qed.

(** The loop reads every byte of an image below 2048 bytes and at most
    2047 bytes of any image. *)
Theorem fallback_sample_count (view : list byte) :
  let n := List.length view in
  let samples := Spec.sampled_indices n (Route.step_of view) in
  (List.length samples <= 2047)%nat /\
  ((n < 2048)%nat -> samples = seq 0 n) /\
  ((2048 <= n)%nat -> (List.length samples < n)%nat).
Proof.
  cbv zeta.
  destruct (step_of_spec view) as [_ Hpos].
  pose proof (sampled_count (List.length view) (Route.step_of view) Hpos) as Hc.
  unfold Route.step_of, Js.floor_div in *.
  set (n := List.length view) in *.
  pose proof (Nat.div_mod_eq n 1024) as Hdm.
  pose proof (Nat.mod_upper_bound n 1024 ltac:(lia)) as Hr.
  assert (Hsmall : (n < 2048)%nat -> Nat.max 1 (n / 1024) = 1%nat).
  { intro Hn. assert (n / 1024 < 2)%nat
      by (apply Nat.Div0.div_lt_upper_bound; lia). lia. }
  assert (Hbig : (2048 <= n)%nat ->
    (2 <= n / 1024 /\ Nat.max 1 (n / 1024) = n / 1024 /\
     n / (n / 1024) < 1536)%nat).
  { intro Hn.
    assert (H2 : (2 <= n / 1024)%nat)
      by (apply Nat.div_le_lower_bound; lia).
    split; [exact H2|]. split; [lia|].
    apply Nat.Div0.div_lt_upper_bound. nia. }
  split; [|split].
  - destruct (Nat.lt_ge_cases n 2048) as [Hn|Hn].
    + rewrite Hc, (Hsmall Hn), Nat.div_1_r, Nat.mod_1_r. cbn. lia.
    + destruct (Hbig Hn) as (_ & Hmax & Hq).
      rewrite Hc, Hmax. clear - Hq. destruct (_ =? _)%nat; lia.
  - intro Hn. rewrite (Hsmall Hn). unfold Spec.sampled_indices.
    apply forallb_filter_id. apply forallb_forall. intros i _.
    now rewrite Nat.mod_1_r.
  - intro Hn. destruct (Hbig Hn) as (_ & Hmax & Hq).
    rewrite Hc, Hmax. clear - Hq Hn. destruct (_ =? _)%nat; lia.
Qed.

Lemma fallback_sample_count_witness :
  Spec.sampled_indices 3 (Route.step_of [x89; x50; x4e]) = seq 0 3 /\
  (List.length
     (Spec.sampled_indices 4100 (Route.step_of (repeat x00 4100))) < 4100)%nat.
Proof.
  split.
  - apply (fallback_sample_count [x89; x50; x4e]). cbn. lia.
  - pose proof (fallback_sample_count (repeat x00 4100)) as H.
    cbv zeta in H. rewrite repeat_length in H.
    apply H. lia.
Defined.

(* ================================================================== *)
(** ** The model list of the override *)
(* ================================================================== *)

Section Strings.

Lemma split_pieces_no_sep (sep : ascii) (s : string) :
  forall p, In p (Js.split sep s) -> ~ In sep (Text.chars p).
Proof.
  induction s as [|c s IH]; intros p; cbn [Js.split].
  - intros [<-|[]]. intros [].
  - destruct (Ascii.eqb_spec c sep) as [->|Hne].
    + intros [<-|Hp]; [intros []|now apply IH].
    + destruct (Js.split sep s) as [|piece pieces].
      * intros [<-|[]]. cbn. intros [H|[]]. congruence.
      * intros [<-|Hp].
        -- cbn. intros [H|H]; [congruence|].
           now apply (IH piece (or_introl eq_refl)).
        -- apply IH. now right.
Qed.

Lemma split_all (sep : ascii) (Q : ascii -> bool) (s : string) :
  (forall p, In p (Js.split sep s) -> forallb Q (Text.chars p) = true) <->
  forallb (fun c => Ascii.eqb c sep || Q c) (Text.chars s) = true.
Proof.
  induction s as [|c s IH].
  - cbn. split; [reflexivity|]. intros _ p [<-|[]]. reflexivity.
  - change (Text.chars (String c s)) with (c :: Text.chars s).
    cbn [Js.split forallb].
    destruct (Ascii.eqb_spec c sep) as [->|Hne]; cbn [orb andb].
    + split.
      * intro H. apply IH. intros p Hp. apply H. now right.
      * intros H p [<-|Hp]; [reflexivity|]. now apply (proj2 IH H).
    + destruct (Js.split sep s) as [|piece pieces] eqn:Hsplit.
      * split.
        -- intro H. specialize (H _ (or_introl eq_refl)).
           change (Text.chars (String c EmptyString)) with [c] in H.
           cbn in H. rewrite andb_true_r in H. rewrite H. cbn [andb].
           apply IH. intros p [].
        -- intros H p [<-|[]].
           change (Text.chars (String c EmptyString)) with [c].
           cbn. apply andb_true_iff in H. now rewrite (proj1 H).
      * split.
        -- intro H. pose proof (H _ (or_introl eq_refl)) as H0.
           change (Text.chars (String c piece)) with (c :: Text.chars piece) in H0.
           cbn [forallb] in H0.
           apply andb_true_iff in H0. destruct H0 as [Hc Hpiece].
           rewrite Hc. cbn [andb]. apply IH.
           intros p [<-|Hp]; [exact Hpiece|]. apply H. now right.
        -- intros H p. apply andb_true_iff in H. destruct H as [Hc H].
           pose proof (proj2 IH H) as Hall.
           intros [<-|Hp].
           ++ change (Text.chars (String c piece)) with (c :: Text.chars piece).
              cbn [forallb]. rewrite Hc. cbn [andb]. apply Hall. now left.
           ++ apply Hall. now right.
Qed.

Lemma trimStart_chars (s : string) (c : ascii) :
  In c (Text.chars (Js.trimStart s)) -> In c (Text.chars s).
Proof.
  induction s as [|d s IH]; cbn [Js.trimStart]; [auto|].
  destruct (Js.is_space d); [|auto].
  intro H. right. now apply IH.
Qed.

Lemma trimEnd_chars (s : string) (c : ascii) :
  In c (Text.chars (Js.trimEnd s)) -> In c (Text.chars s).
Proof.
  induction s as [|d s IH]; cbn [Js.trimEnd]; [auto|].
  destruct (Js.trimEnd s) as [|e t].
  - destruct (Js.is_space d); cbn; [intros []|].
    intros [H|[]]. now left.
  - cbn. intros [H|H]; [now left|]. right. apply IH. exact H.
Qed.

Lemma trimStart_first (s : string) (c : ascii) :
  Text.first_char (Js.trimStart s) = Some c -> Js.is_space c = false.
Proof.
  induction s as [|d s IH]; cbn [Js.trimStart]; [discriminate|].
  destruct (Js.is_space d) eqn:Hd; [exact IH|].
  cbn. now intros [= <-].
Qed.

Lemma trimEnd_first (s : string) (c : ascii) :
  Text.first_char (Js.trimEnd s) = Some c -> Text.first_char s = Some c.
Proof.
  destruct s as [|d s]; cbn [Js.trimEnd]; [discriminate|].
  destruct (Js.trimEnd s) as [|e t]; [destruct (Js.is_space d)|];
    cbn; congruence.
Qed.

Lemma trimEnd_last (s : string) (c : ascii) :
  Text.last_char (Js.trimEnd s) = Some c -> Js.is_space c = false.
Proof.
  induction s as [|d s IH]; cbn [Js.trimEnd]; [discriminate|].
  destruct (Js.trimEnd s) as [|e t].
  - destruct (Js.is_space d) eqn:Hd; cbn; [discriminate|].
    now intros [= <-].
  - exact IH.
Qed.

(** What [trim] returns neither starts nor ends with white space. *)
Lemma trim_trimmed (s : string) : Text.trimmed (Js.trim s).
Proof.
  unfold Js.trim. split; intros c Hc.
  - apply trimEnd_first in Hc. now apply trimStart_first in Hc.
  - now apply trimEnd_last in Hc.
Qed.

Lemma trimStart_empty (s : string) :
  Js.trimStart s = EmptyString <-> forallb Js.is_space (Text.chars s) = true.
Proof.
  induction s as [|d s IH]; cbn [Js.trimStart Text.chars list_ascii_of_string forallb].
  - split; reflexivity.
  - fold (Text.chars s). destruct (Js.is_space d); cbn [andb]; [exact IH|].
    split; discriminate.
Qed.

Lemma trim_empty (s : string) :
  Js.trim s = EmptyString <-> forallb Js.is_space (Text.chars s) = true.
Proof.
  rewrite <- trimStart_empty. unfold Js.trim. split.
  - intro H. destruct (Js.trimStart s) as [|d t] eqn:Hts; [reflexivity|].
    assert (Hd : Js.is_space d = false).
    { apply (trimStart_first s). now rewrite Hts. }
    cbn [Js.trimEnd] in H. rewrite Hd in H.
    destruct (Js.trimEnd t); discriminate.
  - intros ->. reflexivity.
Qed.

End Strings.

(** Every model name the loop tries is non-empty and holds no comma,
    whatever [trim] takes for white space: a name is a name of the default
    list, or is made of characters of one piece of the override between
    two commas. *)
Theorem candidates_clean (env : Route.Env) (modelName : string) :
  In modelName (Route.candidates env) ->
  modelName <> EmptyString /\
  ~ In ","%char (Text.chars modelName) /\
  (In modelName Route.default_candidates \/
   exists s piece,
     Route.OPENROUTER_MODEL env = Some s /\
     In piece (Js.split "," s) /\
     forall c, In c (Text.chars modelName) -> In c (Text.chars piece)).
Proof.
  unfold Route.candidates.
  assert (Hdefault : In modelName Route.default_candidates ->
    modelName <> EmptyString /\
    ~ In ","%char (Text.chars modelName) /\
    (In modelName Route.default_candidates \/
     exists s piece,
       Route.OPENROUTER_MODEL env = Some s /\
       In piece (Js.split "," s) /\
       forall c, In c (Text.chars modelName) -> In c (Text.chars piece))).
  { intro Hin. split; [|split; [|now left]];
      destruct Hin as [<-|[<-|[<-|[]]]]; try discriminate;
      cbn; intuition discriminate. }
  destruct (Route.OPENROUTER_MODEL env) as [s|]; [|exact Hdefault].
  destruct (Js.truthy_string s); [|exact Hdefault].
  rewrite filter_In, in_map_iff.
  intros [(p & <- & Hp) Htruthy].
  assert (Hsub : forall c, In c (Text.chars (Js.trim p)) -> In c (Text.chars p)).
  { intros c Hc. unfold Js.trim in Hc.
    now apply trimEnd_chars, trimStart_chars in Hc. }
  split; [|split].
  - intro H. rewrite H in Htruthy. discriminate.
  - intro Hin. apply Hsub in Hin.
    now apply (split_pieces_no_sep _ _ _ Hp).
  - right. exists s, p. repeat split; assumption.
Qed.

Lemma candidates_clean_witness :
  "x-ai/grok-2"%string <> EmptyString /\
  ~ In ","%char (Text.chars "x-ai/grok-2").
Proof.
  destruct (candidates_clean
              {| Route.OPENROUTER_API_KEY := Some "k"%string;
                 Route.OPENROUTER_MODEL :=
                   Some " openai/gpt-4o , ,x-ai/grok-2,"%string;
                 Route.XAI_API_KEY := None |} "x-ai/grok-2")
    as (Hne & Hcomma & _).
  - vm_compute. right. left. reflexivity.
  - split; assumption.
Defined.

(** The list of the loop is empty only under an override, and it is empty
    when the override is a non-empty text of commas, TAB, LF, VT, FF, CR,
    SPACE and NBSP only.  With an empty list and no xAI key the endpoint
    calls no provider, whether the OpenRouter key is set or not: it answers
    with the fallback and leaves the world as it was. *)
Theorem candidates_empty_override `{RT : Runtime} (env : Route.Env) :
  (Route.candidates env = [] ->
   exists s, Route.OPENROUTER_MODEL env = Some s /\ s <> EmptyString) /\
  (forall s,
      Route.OPENROUTER_MODEL env = Some s ->
      s <> EmptyString ->
      forallb Text.comma_or_space (Text.chars s) = true ->
      Route.candidates env = []) /\
  (Route.candidates env = [] ->
   Route.env_truthy (Route.XAI_API_KEY env) = false ->
   forall (file : Route.File) (bytes : list byte) (w : World),
     Route.detect env file bytes w = (Route.fallback bytes, w)).
Proof.
  split; [|split].
  - unfold Route.candidates.
    destruct (Route.OPENROUTER_MODEL env) as [[|c s]|];
      cbn [Js.truthy_string]; try discriminate.
    intros _. exists (String c s). split; [reflexivity|discriminate].
  - intros s Hs Hne Hall. unfold Route.candidates. rewrite Hs.
    destruct s as [|c s]; [contradiction|]. cbn [Js.truthy_string].
    destruct (filter Js.truthy_string (map Js.trim (Js.split "," (String c s))))
      as [|m rest] eqn:Hf; [reflexivity|].
    assert (Hin : In m (m :: rest)) by now left.
    rewrite <- Hf in Hin. apply filter_In in Hin.
    destruct Hin as [Hin Htruthy]. apply in_map_iff in Hin.
    destruct Hin as (p & <- & Hp).
    unfold Text.comma_or_space in Hall.
    apply (split_all "," Js.is_space) in Hp; [|exact Hall].
    apply trim_empty in Hp. rewrite Hp in Htruthy. discriminate.
  - intros Hnil Hxai file bytes w. unfold Route.detect. cbv zeta.
    rewrite Hnil, Hxai. cbn [Route.try_candidates].
    destruct (Route.env_truthy (Route.OPENROUTER_API_KEY env)); reflexivity.
Qed.

Lemma candidates_empty_override_witness :
  Route.candidates Demo.env_override = [] /\
  Route.detect (RT := Demo.runtime) Demo.env_override Demo.png
    [x89; x50; x4e] 0%nat = (Route.fallback [x89; x50; x4e], 0%nat).
Proof.
  destruct (candidates_empty_override (RT := Demo.runtime) Demo.env_override)
    as (_ & Hsuff & Hdetect).
  assert (Hnil : Route.candidates Demo.env_override = []).
  { apply (Hsuff " , "%string); [reflexivity|discriminate|reflexivity]. }
  split; [exact Hnil|]. now apply Hdetect.
Defined.

(* ================================================================== *)
(** ** JSON repair: what each step does *)
(* ================================================================== *)

(** The repair of trailing commas deletes commas and nothing else: the
    other characters keep their order, the text never grows, and a text
    without comma is returned as it is. *)
Theorem remove_trailing_commas_only_commas (s : string) :
  filter (fun c => negb (Ascii.eqb c ","))
    (Text.chars (Route.remove_trailing_commas s)) =
  filter (fun c => negb (Ascii.eqb c ",")) (Text.chars s) /\
  (String.length (Route.remove_trailing_commas s) <= String.length s)%nat /\
  (~ In ","%char (Text.chars s) -> Route.remove_trailing_commas s = s).
Proof.
  induction s as [|c s (IHf & IHl & IHid)].
  - repeat split; auto.
  - cbn [Route.remove_trailing_commas].
    change (Text.chars (String c s)) with (c :: Text.chars s).
    destruct (Ascii.eqb_spec c ",") as [->|Hne]; cbn [andb].
    + split; [|split].
      * destruct (Route.closes s); [exact IHf|].
        change (Text.chars (String "," (Route.remove_trailing_commas s)))
          with (","%char :: Text.chars (Route.remove_trailing_commas s)).
        cbn [filter Ascii.eqb Bool.eqb negb]. exact IHf.
      * destruct (Route.closes s); cbn [String.length]; lia.
      * intro Hno. exfalso. apply Hno. now left.
    + change (Text.chars (String c (Route.remove_trailing_commas s)))
        with (c :: Text.chars (Route.remove_trailing_commas s)).
      cbn [filter String.length].
      apply Ascii.eqb_neq in Hne. rewrite Hne. cbn [negb].
      split; [now rewrite IHf|]. split; [lia|].
      intro Hno. rewrite IHid; [reflexivity|].
      intro Hin. apply Hno. now right.
Qed.

Lemma remove_trailing_commas_only_commas_witness :
  Route.remove_trailing_commas "{a: 1}" = "{a: 1}"%string.
Proof.
  apply (remove_trailing_commas_only_commas "{a: 1}").
  cbn. intuition discriminate.
Defined.

Example remove_trailing_commas_nested :
  Route.remove_trailing_commas "{a: [1, 2, ], b: 3 , }" = "{a: [1, 2 ], b: 3  }"%string.
Proof. reflexivity. Qed.

(** One pass: of two commas before a brace only the second goes. *)
Example remove_trailing_commas_twice :
  Route.remove_trailing_commas "{a: 1,,}" = "{a: 1,}"%string.
Proof. reflexivity. Qed.

Section RepairSteps.

Context `{RT : Runtime}.

Lemma lower_backtick (b : ascii) :
  Ascii.eqb (Js.lower "`") (Js.lower b) = true -> b = "`"%char.
Proof.
  destruct b as [[] [] [] [] [] [] [] []]; vm_compute;
    intro H; try discriminate H; reflexivity.
Qed.

Lemma after_first_no_backtick (ci : bool) (p s : string) :
  Js.indexOf "`" s = None ->
  Js.after_first ci (String "`" p) s = None.
Proof.
  induction s as [|b s IH]; intro Hno; [reflexivity|].
  cbn [Js.indexOf] in Hno.
  destruct (Ascii.eqb_spec b "`") as [->|Hne]; [discriminate|].
  cbn [Js.after_first Js.strip_prefix].
  assert (Hhead : (if ci then Ascii.eqb (Js.lower "`") (Js.lower b)
                   else Ascii.eqb "`" b) = false).
  { destruct ci.
    - destruct (Ascii.eqb (Js.lower "`") (Js.lower b)) eqn:E; [|reflexivity].
      apply lower_backtick in E. contradiction.
    - apply Ascii.eqb_neq. congruence. }
  rewrite Hhead. apply IH.
  destruct (Js.indexOf "`" s); [discriminate|reflexivity].
Qed.

(** Without a backtick and without an opening brace nothing is parsed: a
    bare array, number or string is answered [null], whatever [JSON.parse]
    would make of it. *)
Theorem extractJsonObject_plain_text (text : string) :
  Js.indexOf "`" text = None ->
  Js.indexOf "{" text = None ->
  Route.extractJsonObject text = Js.JNull.
Proof.
  intros Htick Hbrace.
  unfold Route.extractJsonObject, Route.extractJsonObject_try.
  destruct (Js.truthy_string text); [|reflexivity]. cbn [negb].
  unfold Js.match_between, Route.fence_json, Route.fence.
  rewrite !after_first_no_backtick by assumption.
  unfold Route.brace_block. rewrite Hbrace. reflexivity.
Qed.

(** A [```json] block with content decides the result alone: the value of
    its trimmed content, or [null] when that does not parse. *)
Theorem extractJsonObject_json_block_decides (text c : string) :
  text <> EmptyString ->
  Js.match_between true Route.fence_json Route.fence text = Some c ->
  c <> EmptyString ->
  Route.extractJsonObject text =
  match JSON_parse (Js.trim c) with
  | Some v => v
  | None => Js.JNull
  end.
Proof.
  intros Htext Hmatch Hc.
  unfold Route.extractJsonObject, Route.extractJsonObject_try.
  destruct text as [|t ts]; [contradiction|]. cbn [Js.truthy_string negb].
  rewrite Hmatch. destruct c as [|c1 cs1]; [contradiction|].
  reflexivity.
Qed.

End RepairSteps.

Lemma extractJsonObject_plain_text_witness :
  Route.extractJsonObject (RT := Demo.runtime) "[1, 2, 3]" = Js.JNull.
Proof.
  apply (extractJsonObject_plain_text (RT := Demo.runtime)); reflexivity.
Defined.

Lemma extractJsonObject_json_block_decides_witness :
  Route.extractJsonObject (RT := Demo.runtime)
    ("```JSON" ++ Demo.object_text ++ "``` or {}")%string =
  match @JSON_parse Demo.runtime (Js.trim Demo.object_text) with
  | Some v => v
  | None => Js.JNull
  end.
Proof.
  apply (extractJsonObject_json_block_decides (RT := Demo.runtime));
    [discriminate | reflexivity | discriminate].
Defined.

(** *** The brace candidate *)

Lemma substring_zero (s : string) : String.substring 0 0 s = EmptyString.
Proof. destruct s; reflexivity. Qed.

Lemma substring_to_last (c : ascii) (t : string) :
  forall k, Js.lastIndexOf c t = Some k ->
  exists pre, String.substring 0 (S k) t = (pre ++ String c EmptyString)%string.
Proof.
  induction t as [|d t IH]; intros k; cbn [Js.lastIndexOf]; [discriminate|].
  destruct (Js.lastIndexOf c t) as [i|].
  - intros [= <-]. destruct (IH i eq_refl) as [pre Hpre].
    exists (String d pre). cbn [String.substring]. cbn in Hpre.
    now rewrite Hpre.
  - destruct (Ascii.eqb_spec d c) as [->|_]; [|discriminate].
    intros [= <-]. exists EmptyString. cbn. now rewrite substring_zero.
Qed.

Lemma substring_between (a c : ascii) (t : string) :
  forall i j,
    Js.indexOf a t = Some i -> Js.lastIndexOf c t = Some j -> (i < j)%nat ->
    exists mid,
      String.substring i (j + 1 - i) t =
      String a (mid ++ String c EmptyString).
Proof.
  induction t as [|d t IH]; intros i j; cbn [Js.indexOf Js.lastIndexOf];
    [discriminate|].
  destruct (Js.lastIndexOf c t) as [j'|] eqn:Hlast.
  - intros Hidx [= <-] Hlt.
    destruct (Ascii.eqb_spec d a) as [->|Hne].
    + injection Hidx as <-. destruct (substring_to_last c t j' Hlast) as [pre Hpre].
      exists pre. replace (S j' + 1 - 0)%nat with (S (S j')) by lia.
      cbn [String.substring]. cbn in Hpre. now rewrite Hpre.
    + destruct (Js.indexOf a t) as [i'|]; [|discriminate].
      injection Hidx as <-.
      destruct (IH i' j' eq_refl eq_refl ltac:(lia)) as [mid Hmid].
      exists mid. replace (S j' + 1 - S i')%nat with (j' + 1 - i')%nat by lia.
      cbn [String.substring]. exact Hmid.
  - intros Hidx Hj Hlt.
    destruct (Ascii.eqb d c); [|discriminate]. injection Hj as <-. lia.
Qed.

Lemma last_char_app (s : string) (c : ascii) :
  Text.last_char (s ++ String c EmptyString) = Some c.
Proof.
  induction s as [|d s IH]; [reflexivity|].
  cbn [append Text.last_char]. rewrite IH.
  destruct (s ++ String c EmptyString)%string eqn:E; [|reflexivity].
  destruct s; discriminate.
Qed.

Lemma trimEnd_id (s : string) (c : ascii) :
  Text.last_char s = Some c -> Js.is_space c = false -> Js.trimEnd s = s.
Proof.
  induction s as [|d s IH]; intros Hlast Hc; [reflexivity|].
  cbn [Js.trimEnd]. destruct s as [|e s'].
  - cbn in Hlast. injection Hlast as ->. cbn. now rewrite Hc.
  - rewrite IH by assumption. reflexivity.
Qed.

(** The brace candidate runs from the first opening brace to the last
    closing brace of the text, both included; trimming it changes nothing. *)
Theorem brace_block_delimited (text candidate : string) :
  Route.brace_block text = Some candidate ->
  exists (firstBrace lastBrace : nat) (mid : string),
    Js.indexOf "{" text = Some firstBrace /\
    Js.lastIndexOf "}" text = Some lastBrace /\
    (firstBrace < lastBrace)%nat /\
    candidate = Js.slice firstBrace (lastBrace + 1) text /\
    candidate = String "{" (mid ++ "}").
Proof.
  unfold Route.brace_block.
  destruct (Js.indexOf "{" text) as [i|] eqn:Hi; [|discriminate].
  destruct (Js.lastIndexOf "}" text) as [j|] eqn:Hj; [|discriminate].
  destruct (Nat.ltb_spec i j) as [Hlt|]; [|discriminate].
  intros [= <-].
  destruct (substring_between "{" "}" text i j Hi Hj Hlt) as [mid Hmid].
  assert (Htrim : Js.trim (Js.slice i (j + 1) text) = Js.slice i (j + 1) text).
  { unfold Js.slice. rewrite Hmid. unfold Js.trim. cbn [Js.trimStart].
    change (Js.is_space "{") with false. cbv iota.
    apply trimEnd_id with (c := "}"%char); [|reflexivity].
    apply (last_char_app (String "{" mid) "}"). }
  exists i, j, mid. rewrite Htrim.
  repeat split; assumption.
Qed.

Lemma brace_block_delimited_witness :
  exists (firstBrace lastBrace : nat) (mid : string),
    Js.indexOf "{" "So: {a} and {b}." = Some firstBrace /\
    Js.lastIndexOf "}" "So: {a} and {b}." = Some lastBrace /\
    (firstBrace < lastBrace)%nat /\
    "{a} and {b}"%string = Js.slice firstBrace (lastBrace + 1) "So: {a} and {b}." /\
    "{a} and {b}"%string = String "{" (mid ++ "}").
Proof.
  apply (brace_block_delimited "So: {a} and {b}."). reflexivity.
Defined.

(* ================================================================== *)
(** ** Normalisation: the two branches at their edges *)
(* ================================================================== *)

Lemma slice0_short (n : nat) :
  forall s : string, (String.length s <= n)%nat -> Js.slice0 n s = s.
Proof.
  unfold Js.slice0.
  induction n as [|n IH]; intros [|c s]; cbn; intro H; try reflexivity; try lia.
  rewrite IH by lia. reflexivity.
Qed.

Lemma slice0_prefix (n : nat) :
  forall s : string,
    String.length (Js.slice0 n s) = Nat.min n (String.length s) /\
    String.prefix (Js.slice0 n s) s = true.
Proof.
  unfold Js.slice0.
  induction n as [|n IH]; intros [|c s]; cbn; try (split; reflexivity).
  destruct (IH s) as [Hlen Hpre]. rewrite Hlen, Hpre.
  split; [reflexivity|].
  destruct (ascii_dec c c); [reflexivity|contradiction].
Qed.

Section Numbers2.

Local Open Scope Q_scope.

(** Within 0..100 the clamp does not change what [Math.round] returns. *)
Lemma clamp_round_in_range (x : Js.number) :
  Js.le (Js.of_Z 0) x = true -> Js.le x (Js.of_Z 100) = true ->
  Route.clamp_round x = Js.Math_round x.
Proof.
  destruct x as [| | |q]; try discriminate.
  unfold Route.clamp_round, Js.Math_max, Js.Math_min, Js.of_Z, Js.le.
  intros H0 H100.
  destruct (Qle_bool (inject_Z 100) q) eqn:E100.
  - change (Qle_bool (inject_Z 0) (inject_Z 100)) with true. cbv iota.
    unfold Js.Math_round, Js.of_Z. do 2 f_equal. apply Qfloor_comp.
    apply Qle_bool_iff in E100, H100.
    assert (Heq : inject_Z 100 == q) by now apply Qle_antisym.
    now rewrite Heq.
  - rewrite H0. reflexivity.
Qed.

End Numbers2.

Section Branches.

Context `{RT : Runtime}.

(** On the text branch the clamp and the truncation never act: the score is
    [Math.round] of the score the schema accepted, which lies in 0..100, and
    the reason is the accepted reason, unchanged, of 3 to 200 characters. *)
Theorem text_branch_exact (v : Js.value) (data : Route.SchemaData)
    (prov : string) :
  Route.safeParse v = Some data ->
  Route.detection_of_data data prov =
    {| Route.score := Js.Math_round (Route.data_score data);
       Route.label := Route.label_of (Js.Math_round (Route.data_score data));
       Route.reason := Route.data_reason data;
       Route.provider := prov |} /\
  Js.le (Js.of_Z 0) (Route.data_score data) = true /\
  Js.le (Route.data_score data) (Js.of_Z 100) = true /\
  (3 <= String.length (Route.data_reason data) <= 200)%nat.
Proof.
  unfold Route.safeParse.
  destruct v as [| | | | |props]; try discriminate.
  destruct (Route.schema_score _) as [n|] eqn:Hs; [|discriminate].
  destruct (Route.schema_reason _) as [r|] eqn:Hr; [|discriminate].
  intros [= <-]. cbn [Route.data_score Route.data_reason].
  apply schema_reason_length in Hr.
  assert (Hrange : Js.le (Js.of_Z 0) n = true /\ Js.le n (Js.of_Z 100) = true).
  { unfold Route.schema_score in Hs.
    destruct (Route.preprocess_score _) as [[| |m| | |]|]; try discriminate.
    destruct (negb (Js.isNaN m)); [|discriminate].
    destruct (Js.le (Js.of_Z 0) m) eqn:H0; [|discriminate].
    destruct (Js.le m (Js.of_Z 100)) eqn:H100; [|discriminate].
    cbn in Hs. injection Hs as <-. now split. }
  destruct Hrange as [H0 H100].
  split; [|repeat split; try assumption; lia].
  unfold Route.detection_of_data, Route.text_score. cbv zeta.
  cbn [Route.data_score Route.data_reason Route.Number Route.ToString].
  rewrite clamp_round_in_range by assumption.
  rewrite slice0_short by lia. reflexivity.
Qed.

(** The [generateObject] branches on a degenerate object.  Without a
    [score] the score is 50; with [score: null] it is 0, since [Number(null)]
    is 0.  Without a [reason], or with an empty or [null] one, the reason is
    [No reason provided]; a non-empty reason string is cut to its first
    200 characters. *)
Theorem object_branch_edges (object : Js.value) :
  (Js.get (Some object) "score" = None ->
   Route.object_score object = Js.of_Z 50) /\
  (Js.get (Some object) "score" = Some Js.JNull ->
   Route.object_score object = Js.of_Z 0) /\
  (Js.get (Some object) "reason" = None \/
   Js.get (Some object) "reason" = Some Js.JNull \/
   Js.get (Some object) "reason" = Some (Js.JStr EmptyString) ->
   Route.object_reason object = "No reason provided"%string) /\
  (forall c s,
      Js.get (Some object) "reason" = Some (Js.JStr (String c s)) ->
      Route.object_reason object = Js.slice0 200 (String c s) /\
      String.length (Route.object_reason object) =
        Nat.min 200 (String.length (String c s)) /\
      String.prefix (Route.object_reason object) (String c s) = true /\
      Route.object_reason object <> EmptyString).
Proof.
  unfold Route.object_score, Route.object_reason. cbv zeta.
  split; [|split; [|split]].
  - intros ->. reflexivity.
  - intros ->. reflexivity.
  - intros [ -> | [ -> | -> ] ]; reflexivity.
  - intros c s ->. cbn [Js.truthy Js.truthy_string Route.ToString].
    destruct (slice0_prefix 200 (String c s)) as [Hlen Hpre].
    repeat split; try assumption.
    intro H. rewrite H in Hlen. cbn in Hlen. lia.
Qed.

End Branches.

Lemma text_branch_exact_witness :
  Route.detection_of_data (RT := Demo.runtime)
    {| Route.data_score := Js.of_Z 72; Route.data_reason := "Smooth textures" |}
    "openrouter:m" =
  {| Route.score := Js.of_Z 72;
     Route.label := "AI-Generated";
     Route.reason := "Smooth textures";
     Route.provider := "openrouter:m" |}.
Proof.
  apply (text_branch_exact (RT := Demo.runtime) Demo.object_value).
  reflexivity.
Defined.

Lemma object_branch_edges_witness :
  Route.object_score (RT := Demo.runtime) (Js.JObj []) = Js.of_Z 50 /\
  Route.object_score (RT := Demo.runtime)
    (Js.JObj [("score"%string, Js.JNull)]) = Js.of_Z 0 /\
  Route.object_reason (RT := Demo.runtime) Js.JNull =
    "No reason provided"%string /\
  Route.object_reason (RT := Demo.runtime)
    (Js.JObj [("reason"%string, Js.JStr "ok")]) = "ok"%string.
Proof.
  split; [|split; [|split]].
  - apply (object_branch_edges (RT := Demo.runtime) (Js.JObj [])).
    reflexivity.
  - apply (object_branch_edges (RT := Demo.runtime)
             (Js.JObj [("score"%string, Js.JNull)])).
    reflexivity.
  - apply (object_branch_edges (RT := Demo.runtime) Js.JNull).
    left. reflexivity.
  - destruct (object_branch_edges (RT := Demo.runtime)
                (Js.JObj [("reason"%string, Js.JStr "ok")]))
      as (_ & _ & _ & Hcut).
    destruct (Hcut "o"%char "k"%string eq_refl) as [Hreason _].
    exact Hreason.
Defined.

(* ================================================================== *)
(** ** The widget: verdict, states, meter *)
(* ================================================================== *)

Lemma le_of_Z (a b : Z) : Js.le (Js.of_Z a) (Js.of_Z b) = (a <=? b)%Z.
Proof.
  unfold Js.le, Js.of_Z, Qle_bool, inject_Z. cbn. now rewrite !Z.mul_1_r.
Qed.

Lemma lt_of_Z (a b : Z) : Js.lt (Js.of_Z a) (Js.of_Z b) = (a <? b)%Z.
Proof.
  unfold Js.lt, Js.of_Z, Qle_bool, inject_Z. cbn. rewrite !Z.mul_1_r.
  now rewrite Z.ltb_antisym.
Qed.

Lemma Qfloor_half (z : Z) : Qfloor (inject_Z z + (1 # 2)) = z.
Proof.
  unfold Qfloor, Qplus, inject_Z. cbn.
  symmetry. apply Z.div_unique with (r := 1%Z); lia.
Qed.

Lemma round_of_Z (z : Z) : Js.Math_round (Js.of_Z z) = Js.of_Z z.
Proof.
  unfold Js.Math_round, Js.of_Z. now rewrite Qfloor_half.
Qed.

Lemma clamp_of_Z (z : Z) :
  Js.Math_max (Js.of_Z 0) (Js.Math_min (Js.of_Z 100) (Js.of_Z z)) =
  Js.of_Z (Z.max 0 (Z.min 100 z)).
Proof.
  assert (Hmin : Js.Math_min (Js.of_Z 100) (Js.of_Z z) = Js.of_Z (Z.min 100 z)).
  { change (Js.Math_min (Js.of_Z 100) (Js.of_Z z))
      with (if Js.le (Js.of_Z 100) (Js.of_Z z) then Js.of_Z 100 else Js.of_Z z).
    rewrite le_of_Z. destruct (Z.leb_spec 100 z); f_equal; lia. }
  rewrite Hmin.
  change (Js.Math_max (Js.of_Z 0) (Js.of_Z (Z.min 100 z)))
    with (if Js.le (Js.of_Z 0) (Js.of_Z (Z.min 100 z))
          then Js.of_Z (Z.min 100 z) else Js.of_Z 0).
  rewrite le_of_Z. destruct (Z.leb_spec 0 (Z.min 100 z)); f_equal; lia.
Qed.

(** The score [toDisplay] shows, as an integer. *)
Lemma toDisplay_score (resp : Route.Detection) :
  Js.isNaN (Route.score resp) = false ->
  exists s : Z,
    (0 <= s <= 100)%Z /\
    Detector.display_score (Detector.toDisplay resp) = Js.of_Z s /\
    (forall z, Route.score resp = Js.of_Z z -> s = Z.max 0 (Z.min 100 z)).
Proof.
  unfold Detector.toDisplay. cbv zeta. cbn [Detector.display_score].
  destruct (Route.score resp) as [| | |q] eqn:Hscore; [discriminate| | |];
    intros _.
  - exists 100%Z. repeat split; try lia. discriminate.
  - exists 0%Z. repeat split; try lia. discriminate.
  - change (Js.Math_round (Js.Finite q))
      with (Js.of_Z (Qfloor (q + (1 # 2)))).
    rewrite clamp_of_Z.
    exists (Z.max 0 (Z.min 100 (Qfloor (q + (1 # 2))))).
    split; [lia|]. split; [reflexivity|].
    intros z Hz. unfold Js.of_Z in Hz. injection Hz as ->.
    now rewrite Qfloor_half.
Qed.

(** The verdict of an integer score. *)
Lemma verdict_of_score (resp : Route.Detection) (s : Z) :
  Detector.display_score (Detector.toDisplay resp) = Js.of_Z s ->
  let verdict := Detector.verdict (Detector.toDisplay resp) in
  (verdict = "Human-Captured"%string <-> (s < 35)%Z) /\
  (verdict = "Most Likely Human-Captured"%string <-> (35 <= s < 45)%Z) /\
  (verdict = "Uncertain – borderline case"%string <-> (45 <= s <= 55)%Z) /\
  (verdict = "Most Likely AI-Generated"%string <-> (55 < s <= 65)%Z) /\
  (verdict = "AI-Generated"%string <-> (65 < s)%Z).
Proof.
  unfold Detector.toDisplay. cbv zeta.
  cbn [Detector.display_score Detector.verdict].
  intros ->. rewrite !lt_of_Z, !le_of_Z.
  destruct (Z.ltb_spec s 35); [|destruct (Z.ltb_spec s 45);
    [|destruct (Z.leb_spec s 55); [|destruct (Z.leb_spec s 65)]]];
    repeat split; intros; try lia; try discriminate; reflexivity.
Qed.



(** The verdict refines the label of the endpoint: for every JSON response
    the widget shows the score and the reason as sent, a Human-Captured
    label is shown as one of the two human verdicts, Uncertain as the
    borderline verdict, AI-Generated as one of the two AI verdicts. *)
Theorem verdict_refines_label `{RT : Runtime} (env : Route.Env)
    (req : Route.NextRequest) (w w' : World) (d : Route.Detection) :
  Route.POST env req w = (Route.JsonResponse d, w') ->
  let shown := Detector.toDisplay d in
  Detector.display_score shown = Route.score d /\
  Detector.display_reason shown = Route.reason d /\
  (Route.label d = "Human-Captured"%string <->
   Detector.verdict shown = "Human-Captured"%string \/
   Detector.verdict shown = "Most Likely Human-Captured"%string) /\
  (Route.label d = "Uncertain"%string <->
   Detector.verdict shown = "Uncertain – borderline case"%string) /\
  (Route.label d = "AI-Generated"%string <->
   Detector.verdict shown = "Most Likely AI-Generated"%string \/
   Detector.verdict shown = "AI-Generated"%string).
Proof.
  intro Hpost. cbv zeta.
  destruct (POST_json env req w w' d Hpost)
    as (form & file & bytes & _ & _ & _ & _ & _ & Hd).
  pose proof (detect_normal env file bytes w) as Hn.
  rewrite Hd in Hn. cbn [fst] in Hn.
  destruct Hn as (s & Hs & Hb & Hl & _).
  assert (Hnan : Js.isNaN (Route.score d) = false) by now rewrite Hs.
  destruct (toDisplay_score d Hnan) as (s' & _ & Hs' & Hz).
  specialize (Hz s Hs). assert (Hss : s' = s) by lia.
  rewrite Hss in Hs'. clear Hz Hss s'.
  destruct (verdict_of_score d s Hs') as (V1 & V2 & V3 & V4 & V5).
  destruct (spec_label_cases s) as (L1 & L2 & L3).
  rewrite Hl, Hs', Hs.
  split; [reflexivity|]. split; [reflexivity|].
  rewrite L1, L2, L3, V1, V2, V3, V4, V5. lia.
Qed.

Lemma verdict_refines_label_witness :
  Detector.display_score (Detector.toDisplay (Route.fallback [x89; x50; x4e])) =
    Js.of_Z 87 /\
  Detector.verdict (Detector.toDisplay (Route.fallback [x89; x50; x4e])) =
    "AI-Generated"%string.
Proof.
  destruct (verdict_refines_label (RT := Demo.runtime) Demo.env_none
              (Detector.request_of Demo.png) 0%nat 0%nat
              (Route.fallback [x89; x50; x4e]) eq_refl)
    as (Hscore & _ & _ & _ & _).
  split; [exact Hscore | reflexivity].
Defined.

(** *** The states of the widget *)

Section Widget.

Context `{RT : Runtime}.

(** What [analyze] leaves, from the response of the endpoint. *)
Lemma analyze_with_file (env : Route.Env) (st : Detector.State)
    (f : Route.File) (w : World) :
  Detector.file st = Some f ->
  let st' := fst (Detector.analyze env st w) in
  Detector.file st' = Some f /\
  Detector.previewUrl st' = Detector.previewUrl st /\
  Detector.loading st' = false /\
  snd (Detector.analyze env st w) = snd (Route.POST env (Detector.request_of f) w) /\
  match fst (Route.POST env (Detector.request_of f) w) with
  | Route.JsonResponse d =>
      Detector.result st' = Some (Detector.toDisplay d) /\
      Detector.error st' = None
  | Route.TextResponse msg _ =>
      Detector.result st' = None /\
      exists message, Detector.error st' = Some message
  end.
Proof.
  intro Hf. cbv zeta. unfold Detector.analyze. rewrite Hf.
  destruct (Route.POST env (Detector.request_of f) _) as [[msg code|d] w'];
    cbn; repeat split; try assumption; eexists; reflexivity.
Qed.

(** The invariant of the reachable states. *)
Lemma reachable_invariant (env : Route.Env) (st : Detector.State) :
  Detector.reachable env st ->
  (Detector.file st = None <-> Detector.previewUrl st = None) /\
  (Detector.file st = None -> Detector.result st = None) /\
  (Detector.error st = None \/ Detector.result st = None) /\
  Detector.loading st = false /\
  (forall r, Detector.result st = Some r ->
     exists d, Spec.normal d /\ r = Detector.toDisplay d).
Proof.
  induction 1 as [|st files Hreach IH|st w Hreach IH].
  - cbn. repeat split; auto; discriminate.
  - destruct files as [[|g others]|]; try exact IH.
    destruct IH as (Hfp & Hfr & Her & Hload & Hres).
    unfold Detector.onFiles. cbv zeta.
    destruct (negb (Js.startsWith (Route.file_type g) "image/"));
      [|destruct (Route.file_size g >? Detector.MAX_SIZE_BYTES)%Z]; cbn.
    + split; [exact Hfp|]. split; [reflexivity|]. split; [now right|].
      split; [exact Hload|]. discriminate.
    + split; [exact Hfp|]. split; [reflexivity|]. split; [now right|].
      split; [exact Hload|]. discriminate.
    + split; [split; discriminate|]. split; [reflexivity|].
      split; [now right|]. split; [exact Hload|]. discriminate.
  - destruct IH as (Hfp & Hfr & Her & Hload & Hres).
    destruct (Detector.file st) as [f|] eqn:Hf.
    + destruct (analyze_with_file env st f w Hf)
        as (Hf' & Hp' & Hl' & _ & Hout).
      cbv zeta in *. rewrite Hf', Hp', Hl'.
      split; [exact Hfp|]. split; [discriminate|].
      destruct (Route.POST env (Detector.request_of f) w) as [r w'] eqn:Hpost.
      cbn [fst] in Hout. destruct r as [msg code|d].
      * destruct Hout as [Hr _]. rewrite Hr.
        split; [now right|]. split; [reflexivity|]. discriminate.
      * destruct Hout as [Hr He]. rewrite Hr, He.
        split; [now left|]. split; [reflexivity|].
        intros r [= <-]. exists d. split; [|reflexivity].
        destruct (POST_json env _ w w' d Hpost)
          as (form & file & bytes & _ & _ & _ & _ & _ & Hd).
        pose proof (detect_normal env file bytes w) as Hn.
        now rewrite Hd in Hn.
    + unfold Detector.analyze. rewrite Hf. cbn. rewrite Hf.
      split; [exact Hfp|]. split; [exact Hfr|].
      split; [right; now apply Hfr|]. split; [exact Hload|exact Hres].
Qed.

End Widget.

(** *** The widget while a request is in flight *)

Section Requests.

Context `{RT : Runtime}.

Lemma onFiles_fields (files : option (list Route.File)) (st : Detector.State) :
  Detector.loading (Detector.onFiles files st) = Detector.loading st /\
  ((Detector.onFiles files st = st) \/
   (Detector.result (Detector.onFiles files st) = None /\
    ((Detector.file (Detector.onFiles files st) = Detector.file st /\
      Detector.previewUrl (Detector.onFiles files st) = Detector.previewUrl st) \/
     (exists g url,
         Detector.file (Detector.onFiles files st) = Some g /\
         Detector.previewUrl (Detector.onFiles files st) = Some url /\
         Js.startsWith (Route.file_type g) "image/" = true /\
         (Route.file_size g <= Detector.MAX_SIZE_BYTES)%Z)))).
Proof.
  destruct files as [[|g others]|]; try (split; [reflexivity|now left]).
  unfold Detector.onFiles. cbv zeta.
  destruct (Js.startsWith (Route.file_type g) "image/") eqn:Htype; cbn [negb].
  - destruct (Z.gtb_spec (Route.file_size g) Detector.MAX_SIZE_BYTES)
      as [Hgt|Hle]; cbn.
    + split; [reflexivity|]. right. split; [reflexivity|]. now left.
    + split; [reflexivity|]. right. split; [reflexivity|]. right.
      eexists _, _. repeat split; try reflexivity; assumption.
  - cbn. split; [reflexivity|]. right. split; [reflexivity|]. now left.
Qed.

Lemma analyze_finish_fields (o : Session.fetched) (st : Detector.State) :
  let st' := Session.analyze_finish o st in
  Detector.loading st' = false /\
  Detector.file st' = Detector.file st /\
  Detector.previewUrl st' = Detector.previewUrl st /\
  match o with
  | Session.Ok d =>
      Detector.result st' = Some (Detector.toDisplay d) /\
      Detector.error st' = Detector.error st
  | Session.NotOk text =>
      Detector.result st' = Detector.result st /\
      Detector.error st' =
        Some (if Js.truthy_string text then text else "Request failed"%string)
  | Session.Rejected message =>
      Detector.result st' = Detector.result st /\
      Detector.error st' =
        Some (if Js.truthy_string message then message
              else "Something went wrong."%string)
  end.
Proof.
  destruct o as [message|text|d]; cbn; repeat split.
  destruct text; reflexivity.
Qed.

(** What the endpoint answers is observed as JSON or as a response that is
    not [ok]. *)
Lemma observes_POST (env : Route.Env) (req : Route.NextRequest) (w : World)
    (o : Session.fetched) :
  Session.observes (fst (Route.POST env req w)) o ->
  (exists d, o = Session.Ok d /\
             fst (Route.POST env req w) = Route.JsonResponse d /\
             Spec.normal d) \/
  (exists text, o = Session.NotOk text).
Proof.
  destruct (Route.POST env req w) as [r w'] eqn:Hpost. cbn [fst].
  intro Hobs. inversion Hobs as [d Hr Ho|msg status Hok Hr Ho]; subst.
  - left. exists d. repeat split.
    destruct (POST_json env req w w' d Hpost)
      as (form & file & bytes & _ & _ & _ & _ & _ & Hd).
    pose proof (detect_normal env file bytes w) as Hn.
    now rewrite Hd in Hn.
  - right. now exists msg.
Qed.

(** The invariant of the reachable states with their pending requests. *)
Lemma session_inv (env : Route.Env) (st : Detector.State)
    (pending : list Route.NextRequest) :
  Session.reachable env st pending ->
  (Detector.file st = None <-> Detector.previewUrl st = None) /\
  (forall f, Detector.file st = Some f ->
     Js.startsWith (Route.file_type f) "image/" = true /\
     (Route.file_size f <= Detector.MAX_SIZE_BYTES)%Z) /\
  (List.length pending <= 1)%nat /\
  (Detector.loading st = true <-> pending <> []) /\
  (pending <> [] -> Detector.result st = None /\ Detector.file st <> None) /\
  (Detector.result st <> None -> Detector.file st <> None) /\
  (forall req, In req pending ->
     exists f, req = Detector.request_of f /\
               Js.startsWith (Route.file_type f) "image/" = true /\
               (Route.file_size f <= Detector.MAX_SIZE_BYTES)%Z) /\
  (forall r, Detector.result st = Some r ->
     exists d, Spec.normal d /\ r = Detector.toDisplay d).
Proof.
  induction 1 as [|st pending files Hreach IH|st pending Hreach IH Hshow Hidle
                 |st before req after w o Hreach IH Hobs
                 |st before req after message Hreach IH].
  - cbn. repeat split; try discriminate; try contradiction; auto;
      try (intros req []).
  - destruct IH as (I1 & I2 & I3 & I4 & I5 & I6 & I7 & I8).
    destruct (onFiles_fields files st) as [Hload Hcases].
    destruct Hcases as [Heq|[Hres [[Hf Hp]|(g & url & Hf & Hp & Hty & Hsz)]]].
    + rewrite Heq.
      exact (conj I1 (conj I2 (conj I3 (conj I4 (conj I5 (conj I6
               (conj I7 I8))))))).
    + rewrite Hload, Hres, Hf, Hp.
      split; [exact I1|]. split; [exact I2|]. split; [exact I3|].
      split; [exact I4|].
      split; [intro H; split; [reflexivity|now apply I5]|].
      split; [intro H; now contradiction H|].
      split; [exact I7|discriminate].
    + rewrite Hload, Hres, Hf, Hp.
      split; [split; discriminate|].
      split; [intros f [= <-]; now split|]. split; [exact I3|].
      split; [exact I4|].
      split; [intro H; split; [reflexivity|discriminate]|].
      split; [intro H; now contradiction H|].
      split; [exact I7|discriminate].
  - destruct IH as (I1 & I2 & I3 & I4 & I5 & I6 & I7 & I8).
    assert (Hnone : pending = []).
    { destruct pending as [|r rest]; [reflexivity|].
      assert (Htrue : Detector.loading st = true)
        by (apply I4; discriminate).
      congruence. }
    subst pending.
    unfold View.shows_analyze, View.truthy in Hshow.
    destruct (Detector.previewUrl st) as [url|] eqn:Hurl; [|discriminate].
    destruct (Detector.file st) as [f|] eqn:Hf;
      [|destruct I1 as [I1 _]; specialize (I1 eq_refl); discriminate].
    unfold Session.analyze_start. rewrite Hf. cbn.
    rewrite Hf, Hurl.
    destruct (I2 f eq_refl) as [Hty Hsz].
    split; [split; discriminate|].
    split; [intros g [= <-]; now split|]. split; [lia|].
    split; [split; [discriminate|reflexivity]|].
    split; [intros _; split; [reflexivity|discriminate]|].
    split; [intro H; now contradiction H|].
    split; [|discriminate].
    intros req [<-|[]]. exists f. repeat split; assumption.
  - destruct IH as (I1 & I2 & I3 & I4 & I5 & I6 & I7 & I8).
    assert (Hone : before = [] /\ after = []).
    { rewrite length_app in I3. cbn in I3.
      destruct before; destruct after; cbn in I3; try lia. now split. }
    destruct Hone as [-> ->]. cbn [app] in *.
    destruct (I5 ltac:(discriminate)) as [Hres Hfile].
    destruct (analyze_finish_fields o st) as (Hl & Hf & Hp & Hout).
    cbv zeta in *. rewrite Hl, Hf, Hp.
    split; [exact I1|]. split; [exact I2|]. split; [cbn; lia|].
    split; [split; [discriminate|intro H; now contradiction H]|].
    split; [intro H; now contradiction H|].
    split; [intros _; exact Hfile|].
    split; [intros r []|].
    destruct (observes_POST env req w o Hobs) as [(d & -> & _ & Hn)|(t & ->)].
    + destruct Hout as [Hr _]. rewrite Hr. intros r [= <-]. now exists d.
    + destruct Hout as [Hr _]. rewrite Hr, Hres. discriminate.
  - destruct IH as (I1 & I2 & I3 & I4 & I5 & I6 & I7 & I8).
    assert (Hone : before = [] /\ after = []).
    { rewrite length_app in I3. cbn in I3.
      destruct before; destruct after; cbn in I3; try lia. now split. }
    destruct Hone as [-> ->]. cbn [app] in *.
    destruct (I5 ltac:(discriminate)) as [Hres Hfile].
    destruct (analyze_finish_fields (Session.Rejected message) st)
      as (Hl & Hf & Hp & Hr & _).
    cbv zeta in *. rewrite Hl, Hf, Hp, Hr, Hres.
    split; [exact I1|]. split; [exact I2|]. split; [cbn; lia|].
    split; [split; [discriminate|intro H; now contradiction H]|].
    split; [intro H; now contradiction H|].
    split; [intro H; now contradiction H|].
    split; [intros r []|discriminate].
Qed.

(** In every state the widget reaches, requests in flight included: the
    preview is there exactly when a file is held, and a held file has
    passed both checks; the Analyze button is only rendered with such a
    file; at most one request is pending, and loading is on exactly while
    one is; a pending request carries a file that passed both checks; no
    result is held while a request is pending; a result is only held with
    a file, and it is the display of a detection of the endpoint. *)
Theorem session_invariant (env : Route.Env) (st : Detector.State)
    (pending : list Route.NextRequest) :
  Session.reachable env st pending ->
  (Detector.file st = None <-> Detector.previewUrl st = None) /\
  (View.shows_analyze st = true ->
   exists f, Detector.file st = Some f /\
             Js.startsWith (Route.file_type f) "image/" = true /\
             (Route.file_size f <= Detector.MAX_SIZE_BYTES)%Z) /\
  (List.length pending <= 1)%nat /\
  (View.shows_loading st = true <-> pending <> []) /\
  (forall req, In req pending ->
     exists f, req = Detector.request_of f /\
               Js.startsWith (Route.file_type f) "image/" = true /\
               (Route.file_size f <= Detector.MAX_SIZE_BYTES)%Z) /\
  (pending <> [] -> Detector.result st = None) /\
  (forall r, Detector.result st = Some r ->
     Detector.file st <> None /\
     exists d, Spec.normal d /\ r = Detector.toDisplay d).
Proof.
  intro Hreach.
  destruct (session_inv env st pending Hreach)
    as (I1 & I2 & I3 & I4 & I5 & I6 & I7 & I8).
  split; [exact I1|]. split; [|split; [exact I3|split; [exact I4|]]].
  - unfold View.shows_analyze, View.truthy. intro Hshow.
    destruct (Detector.file st) as [f|] eqn:Hf.
    + exists f. split; [reflexivity|]. now apply I2.
    + rewrite (proj1 I1 eq_refl) in Hshow. discriminate.
  - split; [exact I7|]. split; [intro H; now apply I5|].
    intros r Hr. split; [|now apply I8].
    apply I6. rewrite Hr. discriminate.
Qed.

(** The two halves of [analyze], and their run without interruption.
    The first half: without a file it sets an error and sends nothing; with
    a file it turns loading on, clears error and result and sends that file
    as the [image] field.  The second half, on whatever state the handlers
    that ran meanwhile have left: it turns loading off and keeps file and
    preview; an [ok] response sets the result and leaves the error as it
    is; a response that is not [ok] sets the error to its text, or to
    [Request failed]; a rejection sets the error to its message, or to
    [Something went wrong.]; both leave the result as it is.  For a held
    file of a reachable state the endpoint's response is observed as [ok]
    with the detection of that file when its bytes can be read, as not [ok]
    with [Server error] when they cannot; run back to back on the
    endpoint's response, the two halves give a result and no error. *)
Theorem analyze_steps (env : Route.Env) (st : Detector.State) :
  (Detector.file st = None ->
   Session.analyze_start st =
   (Detector.setError (Some "Please select an image first."%string) st, None)) /\
  (forall f,
      Detector.file st = Some f ->
      let st1 := fst (Session.analyze_start st) in
      snd (Session.analyze_start st) = Some (Detector.request_of f) /\
      Detector.loading st1 = true /\
      Detector.error st1 = None /\
      Detector.result st1 = None /\
      Detector.file st1 = Some f /\
      Detector.previewUrl st1 = Detector.previewUrl st) /\
  (forall o,
      let st2 := Session.analyze_finish o st in
      Detector.loading st2 = false /\
      Detector.file st2 = Detector.file st /\
      Detector.previewUrl st2 = Detector.previewUrl st /\
      match o with
      | Session.Ok d =>
          Detector.result st2 = Some (Detector.toDisplay d) /\
          Detector.error st2 = Detector.error st
      | Session.NotOk text =>
          Detector.result st2 = Detector.result st /\
          Detector.error st2 =
            Some (if Js.truthy_string text then text
                  else "Request failed"%string)
      | Session.Rejected message =>
          Detector.result st2 = Detector.result st /\
          Detector.error st2 =
            Some (if Js.truthy_string message then message
                  else "Something went wrong."%string)
      end) /\
  (forall pending f w,
      Session.reachable env st pending ->
      Detector.file st = Some f ->
      match Route.file_arrayBuffer f with
      | Some bytes =>
          Session.observes (fst (Route.POST env (Detector.request_of f) w))
            (Session.Ok (fst (Route.detect env f bytes w))) /\
          let st2 :=
            Session.analyze_finish
              (Session.Ok (fst (Route.detect env f bytes w)))
              (fst (Session.analyze_start st)) in
          Detector.result st2 =
            Some (Detector.toDisplay (fst (Route.detect env f bytes w))) /\
          Detector.error st2 = None /\
          Detector.loading st2 = false
      | None =>
          Session.observes (fst (Route.POST env (Detector.request_of f) w))
            (Session.NotOk "Server error") /\
          let st2 :=
            Session.analyze_finish (Session.NotOk "Server error")
              (fst (Session.analyze_start st)) in
          Detector.result st2 = None /\
          Detector.error st2 = Some "Server error"%string /\
          Detector.loading st2 = false
      end).
Proof.
  split; [|split; [|split]].
  - intro Hf. unfold Session.analyze_start. now rewrite Hf.
  - intros f Hf. cbv zeta. unfold Session.analyze_start. rewrite Hf. cbn.
    repeat split. exact Hf.
  - intro o. apply analyze_finish_fields.
  - intros pending f w Hreach Hf.
    destruct (session_inv env st pending Hreach) as (_ & I2 & _).
    destruct (I2 f Hf) as [Htype Hsize].
    assert (Hguard : (Route.file_size f >? Route.maxBytes)%Z = false).
    { destruct (Z.gtb_spec (Route.file_size f) Route.maxBytes) as [Hgt|_];
        [|reflexivity].
      unfold Detector.MAX_SIZE_BYTES in Hsize. unfold Route.maxBytes in Hgt.
      lia. }
    assert (Hpost : Route.POST env (Detector.request_of f) w =
      match Route.file_arrayBuffer f with
      | Some bytes =>
          (Route.JsonResponse (fst (Route.detect env f bytes w)),
           snd (Route.detect env f bytes w))
      | None => (Route.TextResponse "Server error" 500, w)
      end).
    { unfold Route.POST, Route.POST_try, Detector.request_of.
      cbn [Route.formData Route.form_file Route.form_get String.eqb Ascii.eqb
           Bool.eqb].
      rewrite Htype, Hguard. cbn [negb].
      destruct (Route.file_arrayBuffer f) as [bytes|]; [|reflexivity].
      destruct (Route.detect env f bytes w). reflexivity. }
    rewrite Hpost. unfold Session.analyze_start. rewrite Hf.
    destruct (Route.file_arrayBuffer f) as [bytes|]; cbn.
    + split; [constructor|]. repeat split.
    + split; [now constructor|]. repeat split.
Qed.

End Requests.

Lemma session_invariant_witness :
  Session.reachable (RT := Demo.runtime) Demo.env_both
    (fst (Session.analyze_start
            (Detector.onFiles (RT := Demo.runtime) (Some [Demo.png])
               Detector.initial)))
    [Detector.request_of Demo.png] /\
  View.shows_loading
    (fst (Session.analyze_start
            (Detector.onFiles (RT := Demo.runtime) (Some [Demo.png])
               Detector.initial))) = true /\
  Detector.result
    (fst (Session.analyze_start
            (Detector.onFiles (RT := Demo.runtime) (Some [Demo.png])
               Detector.initial))) = None.
Proof.
  assert (Hreach :
    Session.reachable (RT := Demo.runtime) Demo.env_both
      (fst (Session.analyze_start
              (Detector.onFiles (RT := Demo.runtime) (Some [Demo.png])
                 Detector.initial)))
      [Detector.request_of Demo.png]).
  { apply (Session.reach_click (RT := Demo.runtime) Demo.env_both
             (Detector.onFiles (RT := Demo.runtime) (Some [Demo.png])
                Detector.initial) []);
      [|reflexivity|reflexivity].
    apply Session.reach_onFiles, Session.reach_initial. }
  destruct (session_invariant (RT := Demo.runtime) Demo.env_both _ _ Hreach)
    as (_ & _ & _ & Hloading & _ & Hresult & _).
  split; [exact Hreach|]. split.
  - apply Hloading. discriminate.
  - apply Hresult. discriminate.
Defined.

Lemma analyze_steps_witness :
  Detector.result
    (Session.analyze_finish
       (Session.Ok
          (fst (Route.detect (RT := Demo.runtime) Demo.env_both Demo.png
                  [x89; x50; x4e] 0%nat)))
       (fst (Session.analyze_start
               (Detector.onFiles (RT := Demo.runtime) (Some [Demo.png])
                  Detector.initial)))) =
  Some (Detector.toDisplay
          (fst (Route.detect (RT := Demo.runtime) Demo.env_both Demo.png
                  [x89; x50; x4e] 0%nat))).
Proof.
  destruct (analyze_steps (RT := Demo.runtime) Demo.env_both
              (Detector.onFiles (RT := Demo.runtime) (Some [Demo.png])
                 Detector.initial))
    as (_ & _ & _ & Hrun).
  specialize (Hrun [] Demo.png 0%nat).
  cbn [Demo.png Route.file_arrayBuffer] in Hrun.
  apply Hrun.
  - apply Session.reach_onFiles, Session.reach_initial.
  - reflexivity.
Defined.

(** A rejected drop while the request is pending: once the response is in,
    the error of the drop and the result are both on display. *)
Example error_and_result_together :
  let st0 := Detector.onFiles (RT := Demo.runtime) (Some [Demo.png])
               Detector.initial in
  let st1 := fst (Session.analyze_start st0) in
  let st2 :=
    Detector.onFiles (RT := Demo.runtime)
      (Some [ {| Route.file_type := "text/plain"; Route.file_size := 1;
                 Route.file_arrayBuffer := None |} ]) st1 in
  let st3 :=
    Session.analyze_finish
      (Session.Ok (Route.fallback [x89; x50; x4e])) st2 in
  Session.reachable (RT := Demo.runtime) Demo.env_none st3 [] /\
  View.shows_error st3 = true /\
  View.shows_result st3 = true.
Proof.
  cbv zeta. split; [|split; reflexivity].
  apply (Session.reach_response (RT := Demo.runtime) Demo.env_none _ []
           (Detector.request_of Demo.png) [] 0%nat).
  - apply Session.reach_onFiles.
    apply (Session.reach_click (RT := Demo.runtime) Demo.env_none
             (Detector.onFiles (RT := Demo.runtime) (Some [Demo.png])
                Detector.initial) []);
      [|reflexivity|reflexivity].
    apply Session.reach_onFiles, Session.reach_initial.
  - apply Session.observes_json.
Qed.

(** *** The meter *)

Lemma includes_AI :
  View.includes "Human-Captured" "AI" = false /\
  View.includes "Most Likely Human-Captured" "AI" = false /\
  View.includes "Uncertain – borderline case" "AI" = false /\
  View.includes "Most Likely AI-Generated" "AI" = true /\
  View.includes "AI-Generated" "AI" = true.
Proof. repeat split; reflexivity. Qed.

(** What the meter shows in a state the widget reaches.  Without a result
    it shows 0.  With a result it shows the score on display, an integer
    [s] in 0..100 that its own clamp leaves alone; its colour is the grey
    one up to 45, the amber one from 46 to 55, the green one above, while
    the verdict is the borderline one from 45 to 55: at 45 the verdict is
    borderline and the meter grey.  The verdict line is green exactly
    above 55. *)
Theorem meter_display `{RT : Runtime} (env : Route.Env) (st : Detector.State) :
  Detector.reachable env st ->
  (Detector.result st = None ->
   RadialMeter.clamped (View.meter_value st) = Js.of_Z 0 /\
   View.meter_colorClass st = "text-emerald-400"%string) /\
  (forall r,
      Detector.result st = Some r ->
      exists s : Z,
        (0 <= s <= 100)%Z /\
        Detector.display_score r = Js.of_Z s /\
        RadialMeter.clamped (View.meter_value st) = Js.of_Z s /\
        (View.meter_colorClass st = "text-zinc-400"%string <-> (s <= 45)%Z) /\
        (View.meter_colorClass st = "text-amber-300"%string <->
         (45 < s <= 55)%Z) /\
        (View.meter_colorClass st = "text-emerald-400"%string <-> (55 < s)%Z) /\
        (Detector.verdict r = "Uncertain – borderline case"%string <->
         (45 <= s <= 55)%Z) /\
        (View.verdict_class r = "text-emerald-300"%string <-> (55 < s)%Z)).
Proof.
  intro Hreach.
  destruct (reachable_invariant env st Hreach) as (_ & _ & _ & _ & Hres).
  unfold View.meter_value, View.meter_colorClass.
  split.
  - intros ->. split; reflexivity.
  - intros r Hr. rewrite Hr.
    destruct (Hres r Hr) as (d & (s0 & Hs0 & Hb0 & _ & _) & ->).
    assert (Hnan : Js.isNaN (Route.score d) = false) by now rewrite Hs0.
    destruct (toDisplay_score d Hnan) as (s & Hb & Hs & Hz).
    destruct (verdict_of_score d s Hs) as (V1 & V2 & V3 & V4 & V5).
    destruct includes_AI as (I1 & I2 & I3 & I4 & I5).
    exists s. split; [exact Hb|]. split; [exact Hs|].
    rewrite Hs. split.
    { unfold RadialMeter.clamped. rewrite clamp_of_Z. f_equal. lia. }
    rewrite !le_of_Z.
    split; [|split; [|split; [|split; [exact V3|]]]].
    + destruct (Z.leb_spec s 45); [|destruct (Z.leb_spec s 55)];
        split; intros; try lia; try discriminate; reflexivity.
    + destruct (Z.leb_spec s 45); [|destruct (Z.leb_spec s 55)];
        split; intros; try lia; try discriminate; reflexivity.
    + destruct (Z.leb_spec s 45); [|destruct (Z.leb_spec s 55)];
        split; intros; try lia; try discriminate; reflexivity.
    + unfold View.verdict_class.
      destruct (Z.lt_ge_cases s 35) as [H35|H35];
        [rewrite (proj2 V1 H35), I1; split; [discriminate|lia]|].
      destruct (Z.lt_ge_cases s 45) as [H45|H45];
        [rewrite (proj2 V2 (conj H35 H45)), I2; split; [discriminate|lia]|].
      destruct (Z.le_gt_cases s 55) as [H55|H55];
        [rewrite (proj2 V3 (conj H45 H55)), I3; split; [discriminate|lia]|].
      destruct (Z.le_gt_cases s 65) as [H65|H65];
        [rewrite (proj2 V4 (conj H55 H65)), I4; split; [lia|reflexivity]|].
      rewrite (proj2 V5 H65), I5. split; [lia|reflexivity].
Qed.

Lemma meter_display_witness :
  RadialMeter.clamped
    (View.meter_value
       (Detector.onFiles (RT := Demo.runtime) (Some [Demo.png])
          Detector.initial)) = Js.of_Z 0 /\
  View.meter_colorClass
    (Detector.onFiles (RT := Demo.runtime) (Some [Demo.png]) Detector.initial)
    = "text-emerald-400"%string.
Proof.
  apply (meter_display (RT := Demo.runtime) Demo.env_both).
  - apply Detector.reach_onFiles, Detector.reach_initial.
  - reflexivity.
Defined.

(** A score of 45 from the endpoint: borderline verdict, grey meter. *)
Example meter_at_45 :
  let r :=
    Detector.toDisplay
      {| Route.score := Js.of_Z 45; Route.label := "Uncertain";
         Route.reason := "r"; Route.provider := "p" |} in
  let st := Detector.setResult (Some r) Detector.initial in
  Detector.verdict r = "Uncertain – borderline case"%string /\
  View.meter_colorClass st = "text-zinc-400"%string.
Proof. split; reflexivity. Qed.
